(** * Aux::StringBuilder: value rendering and [%s] templates

    A shallow embedding of [src/cpp/auxiliary/StringBuilder.h] and the
    properties of its classifier, its renderer and its template
    interpreter.

    Conventions of the embedding:
    - a [std::ostream] is the text written to it so far; its formatting
      flags and its error state are not part of the model, so what an
      [operator<<] writes depends on the value alone;
    - a pair of [std::string::const_iterator]s [(it, end)] over the
      immutable format is the text of the range [[it, end)], so [it == end]
      is the empty text and [++it] drops the first character;
    - a C++ type is a [CType]: its shape, and the [operator<<] overload that
      overload resolution finds for it, if any;
    - a function that writes to a stream and may throw is a computation in
      the monad [Stm]; what was written before a [throw] stays written. *)

From Stdlib Require Import String Ascii List ZArith Bool Arith Lia.
From Stdlib Require Import DecimalString.
Import ListNotations.

Local Open Scope list_scope.
Local Open Scope string_scope.

#[local] Set Warnings "-register-all".

(** ** Streams, exceptions and the monad of stream computations *)

Definition ostream := string.

(** [std::invalid_argument{what}] *)
Inductive invalid_argument : Type :=
  InvalidArgument (what : string).

(** States that the C++ static semantics excludes; they are kept in the
    model so that their absence is a theorem and not a convention. *)
Inductive Fault : Type :=
| NoDefinition      (* printToStreamTagged(.., UnprintableTag): declared, never defined *)
| TypeMismatch      (* the value does not inhabit the static type *)
| AssertionFailed   (* assert(it == format_end) *).

Inductive Result (A : Type) : Type :=
| Ok (a : A)
| Throw (e : invalid_argument)
| Abort (f : Fault).

Arguments Ok {A} a.
Arguments Throw {A} e.
Arguments Abort {A} f.

Definition Stm (A : Type) : Type := ostream -> Result A * ostream.

Definition ret {A} (a : A) : Stm A := fun stream => (Ok a, stream).

Definition bind {A B} (m : Stm A) (k : A -> Stm B) : Stm B :=
  fun stream =>
    match m stream with
    | (Ok a, stream') => k a stream'
    | (Throw e, stream') => (Throw e, stream')
    | (Abort f, stream') => (Abort f, stream')
    end.

Definition throw {A} (e : invalid_argument) : Stm A :=
  fun stream => (Throw e, stream).

Definition abort {A} (f : Fault) : Stm A :=
  fun stream => (Abort f, stream).

(** [stream << text], [stream.write(p, n)] *)
Definition write (text : string) : Stm unit :=
  fun stream => (Ok tt, stream ++ text).

(** [stream << c], [stream.put(c)] *)
Definition put (c : ascii) : Stm unit := write (String c "").

(** [assert(b)] *)
Definition assert (b : bool) : Stm unit :=
  if b then ret tt else abort AssertionFailed.

Declare Scope stm_scope.
Delimit Scope stm_scope with stm.
Notation "x <- m ;; k" := (bind m (fun x => k))
  (at level 61, m at next level, right associativity) : stm_scope.
Notation "m ;; k" := (bind m (fun _ => k))
  (at level 61, right associativity) : stm_scope.
Local Open Scope stm_scope.

(** ** Categories of how a type might be printable *)

Inductive PrintableCategory : Type :=
| Unprintable
| Iteratable
| Pair
| Tuple
| Streamable.

(** The four compile-time predicates [isStreamable<T>()], [isPair<T>()],
    [isTuple<T>()] and [isIteratable<T>()] of a universe of types. *)
Class TypeTraits (Ty : Type) : Type := {
  isStreamable : Ty -> bool;
  isPair : Ty -> bool;
  isTuple : Ty -> bool;
  isIteratable : Ty -> bool
}.

Definition getPrintableCategory {Ty} `{TypeTraits Ty} (T : Ty) : PrintableCategory :=
  if isStreamable T then Streamable else
  if isPair T then Pair else
  if isTuple T then Tuple else
  if isIteratable T then Iteratable else
  Unprintable.

(** ** Values and types *)

Inductive Value : Type :=
| VInt (z : Z)                          (* a value of an integer type *)
| VChar (c : ascii)                     (* a [char] *)
| VObject (state : string)              (* an object the engine cannot look into *)
| VPair (first second : Value)          (* a [std::pair] *)
| VTuple (elems : list Value)           (* a [std::tuple] *)
| VRange (elems : list Value)           (* what [std::begin .. std::end] traverses *).

(** [operator<<(std::ostream&, const T&)] as the text it writes *)
Definition Inserter : Type := Value -> string.

Inductive CType : Type :=
| Plain (shl : option Inserter)                        (* no [begin]/[end], neither pair nor tuple *)
| StdPair (shl : option Inserter) (T1 T2 : CType)      (* [std::pair<T1, T2>] *)
| StdTuple (shl : option Inserter) (Ts : list CType)   (* [std::tuple<Ts...>] *)
| Range (shl : option Inserter) (Elem : CType)         (* [std::begin]/[std::end] give input iterators over [Elem] *).

Definition inserter (T : CType) : option Inserter :=
  match T with
  | Plain shl | StdPair shl _ _ | StdTuple shl _ | Range shl _ => shl
  end.

Definition is_some {A} (o : option A) : bool :=
  match o with Some _ => true | None => false end.

#[export] Instance CType_traits : TypeTraits CType := {
  isStreamable T := is_some (inserter T);
  isPair T := match T with StdPair _ _ _ => true | _ => false end;
  isTuple T := match T with StdTuple _ _ => true | _ => false end;
  isIteratable T := match T with Range _ _ => true | _ => false end
}.

(** An argument [const T& arg] of a call: its static type and its value. *)
Record Arg : Type := MkArg { arg_type : CType; arg_value : Value }.

(** ** The renderer (namespace [Impl]) *)

Module Impl.

Section Tagged.

(** The instantiation [printToStream<U>(stream, x)] with one argument,
    which the bodies below call on the parts of their argument. *)
Variable printToStream1 : CType -> Value -> Stm unit.

(** Streamable: [stream << arg] *)
Definition printToStreamTagged_Streamable (T : CType) (arg : Value) : Stm unit :=
  match inserter T with
  | Some shl => write (shl arg)
  | None => abort TypeMismatch
  end.

(** Pair *)
Definition printToStreamTagged_Pair (T : CType) (arg : Value) : Stm unit :=
  match T, arg with
  | StdPair _ T1 T2, VPair first second =>
      put "(" ;;
      printToStream1 T1 first ;;
      write ", " ;;
      printToStream1 T2 second ;;
      put ")"
  | _, _ => abort TypeMismatch
  end.

(** Tuple: [printTupleHelper<Tuple, I, TupleSize>::print].  [Ts] and
    [elems] are the element types and the elements from index [I-1] on,
    so [std::get<I-1>(arg)] is the head of [elems]. *)
Fixpoint printTupleHelper (I TupleSize : nat) (Ts : list CType) (elems : list Value)
  {struct elems} : Stm unit :=
  match Ts, elems with
  | T :: Ts', x :: elems' =>
      if Nat.eqb I TupleSize then
        (* the specialisation <Tuple, I, I> *)
        printToStream1 T x
      else
        printToStream1 T x ;;
        write ", " ;;
        printTupleHelper (I + 1) TupleSize Ts' elems'
  | _, _ => abort TypeMismatch
  end.

Definition printToStreamTagged_Tuple (T : CType) (arg : Value) : Stm unit :=
  match T, arg with
  | StdTuple _ Ts, VTuple elems =>
      put "(" ;;
      printTupleHelper 1 (length Ts) Ts elems ;;
      put ")"
  | _, _ => abort TypeMismatch
  end.

(** Iteratable: the loop [while (it != end)], on the elements from [it] on *)
Fixpoint printToStreamTagged_Iteratable_loop (Elem : CType) (it : list Value)
  (firstpass : bool) {struct it} : Stm unit :=
  match it with
  | [] => ret tt
  | x :: it' =>
      (if firstpass then ret tt else write ", ") ;;
      printToStream1 Elem x ;;
      printToStreamTagged_Iteratable_loop Elem it' false
  end.

Definition printToStreamTagged_Iteratable (T : CType) (arg : Value) : Stm unit :=
  match T, arg with
  | Range _ Elem, VRange elems =>
      put "[" ;;
      printToStreamTagged_Iteratable_loop Elem elems true ;;
      put "]"
  | _, _ => abort TypeMismatch
  end.

(** Unprintable: only declared ([extern]); there is no body to run. *)
Definition printToStreamTagged_Unprintable (T : CType) (arg : Value) : Stm unit :=
  abort NoDefinition.

End Tagged.

(** [printToStreamTagged(stream, arg, PrintableCategoryTag<getPrintableCategory<T>()>{})]:
    overload resolution on the tag selects the body. *)
Fixpoint printToStreamTagged (T : CType) (arg : Value) {struct arg} : Stm unit :=
  match getPrintableCategory T with
  | Streamable => printToStreamTagged_Streamable T arg
  | Pair => printToStreamTagged_Pair printToStreamTagged T arg
  | Tuple => printToStreamTagged_Tuple printToStreamTagged T arg
  | Iteratable => printToStreamTagged_Iteratable printToStreamTagged T arg
  | Unprintable => printToStreamTagged_Unprintable T arg
  end.

(** [printToStream(stream, arg, args...)] and [printToStream(stream)].  The
    [static_assert] is checked when the template is instantiated, see
    [Build.printToStream1]; nothing of it is left at run time. *)
Fixpoint printToStream (args : list Arg) : Stm unit :=
  match args with
  | [] => ret tt
  | arg :: args' =>
      printToStreamTagged (arg_type arg) (arg_value arg) ;;
      printToStream args'
  end.

(** [std::find(begin, end, c)]: the position of the first [c], or [end] *)
Fixpoint std_find (begin : string) (c : ascii) {struct begin} : string :=
  match begin with
  | EmptyString => begin
  | String x rest => if Ascii.eqb x c then begin else std_find rest c
  end.

(** The characters of the range [[begin, it)], for [it] a position reached
    from [begin]: [it - begin] characters starting at [&*begin]. *)
Definition range (begin it : string) : string :=
  substring 0 (String.length begin - String.length it) begin.

Definition format_requests_more : invalid_argument :=
  InvalidArgument "formatstring requests more arguments then provided".
Definition format_ends_on_percent : invalid_argument :=
  InvalidArgument "formatstrings must not end on unmatched '%'".
Definition format_illegal_specifier : invalid_argument :=
  InvalidArgument "formatstring contains illegal format-specifier".

(** The [while (true)] loop of [printFormatPartToStream]. *)
Fixpoint printFormatPartToStream_loop (begin : string) {struct begin}
  : Stm (string * bool) :=
  let nextPercent := std_find begin "%" in
  write (range begin nextPercent) ;;
  match nextPercent with
  | EmptyString => ret (EmptyString, false)
  | String _ begin' =>
      match begin' with
      | EmptyString => throw format_ends_on_percent
      | String c begin'' =>
          if Ascii.eqb c "%" then
            put "%" ;;
            printFormatPartToStream_loop begin''
          else if Ascii.eqb c "s" then
            ret (begin'', true)
          else
            throw format_illegal_specifier
      end
  end.

Definition printFormatPartToStream (begin : string) : Stm (string * bool) :=
  match begin with
  | EmptyString => ret (EmptyString, false)
  | _ => printFormatPartToStream_loop begin
  end.

(** [printToStreamF(stream, format_begin, format_end)] and
    [printToStreamF(stream, format_begin, format_end, arg, args...)] *)
Fixpoint printToStreamF (format : string) (args : list Arg) {struct args} : Stm unit :=
  match args with
  | [] =>
      r <- printFormatPartToStream format ;;
      let '(it, printArgument) := r in
      if printArgument then throw format_requests_more else ret tt
  | arg :: args' =>
      r <- printFormatPartToStream format ;;
      let '(it, printArgument) := r in
      if printArgument then
        printToStream [arg] ;;
        printToStreamF it args'
      else
        assert (String.eqb it EmptyString) ;;
        ret tt
  end.

End Impl.

(** ** The public interface (namespace [Aux]) *)

(** A function that builds a local [std::stringstream], runs [m] on it and
    returns [stream.str()]; an exception leaves through it. *)
Definition with_stringstream (m : Stm unit) : Result string :=
  match m EmptyString with
  | (Ok _, stream) => Ok stream
  | (Throw e, _) => Throw e
  | (Abort f, _) => Abort f
  end.

Definition printToStream (args : list Arg) : Stm unit :=
  Impl.printToStream args.

Definition toString (args : list Arg) : Result string :=
  with_stringstream (printToStream args).

Definition printToStreamF (format : string) (args : list Arg) : Stm unit :=
  Impl.printToStreamF format args.

Definition toStringF (format : string) (args : list Arg) : Result string :=
  with_stringstream (printToStreamF format args).

(** ** Some C++ types *)

Module Types.

(** [operator<<(std::ostream&, int)] *)
Definition shl_int : Inserter := fun v =>
  match v with
  | VInt z => NilZero.string_of_int (Z.to_int z)
  | _ => EmptyString
  end.

(** [operator<<(std::ostream&, char)] *)
Definition shl_char : Inserter := fun v =>
  match v with
  | VChar c => String c EmptyString
  | _ => EmptyString
  end.

(** [operator<<(std::ostream&, const std::string&)] *)
Definition shl_string : Inserter := fun v =>
  match v with
  | VRange elems => String.concat EmptyString (map shl_char elems)
  | _ => EmptyString
  end.

Definition int : CType := Plain (Some shl_int).
Definition char : CType := Plain (Some shl_char).
Definition std_string : CType := Range (Some shl_string) char.
Definition std_vector (Elem : CType) : CType := Range None Elem.
Definition std_pair (T1 T2 : CType) : CType := StdPair None T1 T2.
Definition std_tuple (Ts : list CType) : CType := StdTuple None Ts.
(** [struct Opaque {};] with no [operator<<] *)
Definition Opaque : CType := Plain None.

(** A program's own [struct Metres] with its [operator<<], and the
    [operator<<] that the same program declares for
    [std::pair<Metres, Metres>]. *)
Definition shl_metres : Inserter := fun v =>
  match v with
  | VObject state => state ++ "m"
  | _ => EmptyString
  end.

Definition Metres : CType := Plain (Some shl_metres).

Definition shl_area : Inserter := fun v =>
  match v with
  | VPair width height => shl_metres width ++ " x " ++ shl_metres height
  | _ => EmptyString
  end.

Definition Area : CType := StdPair (Some shl_area) Metres Metres.

Definition a_int (z : Z) : Arg := MkArg int (VInt z).
Definition a_string (s : string) : Arg :=
  MkArg std_string (VRange (map VChar (list_ascii_of_string s))).

End Types.

(** ** Instantiation: what the compiler checks before any code runs *)

Inductive Diagnostic : Type :=
| StaticAssertFailed (message : string)
| TupleIndexOutOfRange                  (* [std::get<0>] of [std::tuple<>] *).

Module Build.

(** The message of the [static_assert] in [Impl::printToStream]. *)
Definition unprintable_argument : Diagnostic :=
  StaticAssertFailed "printToStream must not be called with an unprintable argument".

Section Tagged.

Variable printToStream1 : CType -> list Diagnostic.

Definition printToStreamTagged_Pair (T : CType) : list Diagnostic :=
  match T with
  | StdPair _ T1 T2 => (printToStream1 T1 ++ printToStream1 T2)%list
  | _ => []
  end.

Fixpoint printTupleHelper (I TupleSize : nat) (Ts : list CType) {struct Ts}
  : list Diagnostic :=
  match Ts with
  | T :: Ts' =>
      if Nat.eqb I TupleSize then printToStream1 T
      else (printToStream1 T ++ printTupleHelper (I + 1) TupleSize Ts')%list
  | [] => [TupleIndexOutOfRange]
  end.

Definition printToStreamTagged_Tuple (T : CType) : list Diagnostic :=
  match T with
  | StdTuple _ Ts => printTupleHelper 1 (length Ts) Ts
  | _ => []
  end.

Definition printToStreamTagged_Iteratable (T : CType) : list Diagnostic :=
  match T with
  | Range _ Elem => printToStream1 Elem
  | _ => []
  end.

End Tagged.

(** Instantiating [printToStream<T>(stream, arg)]: the [static_assert],
    then the body selected by the tag. *)
Fixpoint printToStream1 (T : CType) : list Diagnostic :=
  match getPrintableCategory T with
  | Unprintable => [unprintable_argument]
  | Streamable => []
  | Pair => printToStreamTagged_Pair printToStream1 T
  | Tuple => printToStreamTagged_Tuple printToStream1 T
  | Iteratable => printToStreamTagged_Iteratable printToStream1 T
  end.

(** Instantiating [printToStream<T, Args...>]. *)
Definition printToStream (Ts : list CType) : list Diagnostic :=
  flat_map printToStream1 Ts.

(** Instantiating [printToStreamF<T, Args...>], whose body calls
    [printToStream(stream, arg)] for each argument type, whatever the
    format turns out to be at run time. *)
Definition printToStreamF (Ts : list CType) : list Diagnostic :=
  flat_map printToStream1 Ts.

(** The program is accepted when no diagnostic is issued. *)
Definition accepted (ds : list Diagnostic) : bool :=
  match ds with [] => true | _ :: _ => false end.

End Build.

(** ** Values of a type *)

(** [f x y] for the elements of two lists of one length, pairwise. *)
Fixpoint forallb2 {A B} (f : A -> B -> bool) (xs : list A) (ys : list B) {struct ys}
  : bool :=
  match xs, ys with
  | [], [] => true
  | x :: xs', y :: ys' => f x y && forallb2 f xs' ys'
  | _, _ => false
  end.

Fixpoint has_type (T : CType) (v : Value) {struct v} : bool :=
  match T, v with
  | Plain _, (VInt _ | VChar _ | VObject _) => true
  | StdPair _ T1 T2, VPair first second => has_type T1 first && has_type T2 second
  | StdTuple _ Ts, VTuple elems => forallb2 has_type Ts elems
  | Range _ Elem, VRange elems => forallb (has_type Elem) elems
  | _, _ => false
  end.

(** A renderable argument: the call [printToStream(stream, arg)] is
    accepted by the compiler and the value inhabits the static type. *)
Definition renderable (a : Arg) : bool :=
  Build.accepted (Build.printToStream1 (arg_type a)) && has_type (arg_type a) (arg_value a).

(** ** Vocabulary of the specification *)

(** *** The classifier: the fixed precedence order *)

Definition rank (c : PrintableCategory) : nat :=
  match c with
  | Streamable => 0
  | Pair => 1
  | Tuple => 2
  | Iteratable => 3
  | Unprintable => 4
  end.

(** The structural shape that goes with a category; [Unprintable] is the
    fallback and asks for nothing. *)
Definition has_shape {Ty} `{TypeTraits Ty} (T : Ty) (c : PrintableCategory) : bool :=
  match c with
  | Streamable => isStreamable T
  | Pair => isPair T
  | Tuple => isTuple T
  | Iteratable => isIteratable T
  | Unprintable => true
  end.

(** [c] is the first category, in the order [Streamable], [Pair],
    [Tuple], [Iteratable], [Unprintable], whose shape [T] has. *)
Definition first_match {Ty} `{TypeTraits Ty} (T : Ty) (c : PrintableCategory) : Prop :=
  has_shape T c = true /\
  forall c', rank c' < rank c -> has_shape T c' = false.

(** *** Templates *)

Inductive Token : Type :=
| Literal (c : ascii)     (* a character other than [%], copied verbatim *)
| Escape                  (* [%%] *)
| Placeholder             (* [%s] *).

Definition spelling (tok : Token) : string :=
  match tok with
  | Literal c => String c EmptyString
  | Escape => "%%"
  | Placeholder => "%s"
  end.

Fixpoint template_of (toks : list Token) : string :=
  match toks with
  | [] => EmptyString
  | tok :: toks' => spelling tok ++ template_of toks'
  end.

(** Reading a template left to right: the tokens of its longest
    well-formed prefix, and what is left, which is empty or starts with a
    [%] that is followed neither by [s] nor by [%]. *)
Fixpoint scan (template : string) : list Token * string :=
  match template with
  | EmptyString => ([], EmptyString)
  | String c rest =>
      if Ascii.eqb c "%" then
        match rest with
        | EmptyString => ([], template)
        | String d rest' =>
            if Ascii.eqb d "%" then
              let (toks, left) := scan rest' in (Escape :: toks, left)
            else if Ascii.eqb d "s" then
              let (toks, left) := scan rest' in (Placeholder :: toks, left)
            else ([], template)
        end
      else
        let (toks, left) := scan rest in (Literal c :: toks, left)
  end.

Definition tokens (template : string) : list Token := fst (scan template).

(** Every [%] is immediately followed by [s] or [%]. *)
Definition well_formed (template : string) : bool :=
  String.eqb (snd (scan template)) EmptyString.

Fixpoint placeholders (toks : list Token) : nat :=
  match toks with
  | [] => 0
  | Placeholder :: toks' => S (placeholders toks')
  | _ :: toks' => placeholders toks'
  end.

(** The text a well-formed template stands for: literals verbatim, [%]
    for [%%], and the text numbered [i] for the placeholder numbered [i],
    where [i] counts the placeholders to its left. *)
Fixpoint substitute (i : nat) (toks : list Token) (texts : list string) : string :=
  match toks with
  | [] => EmptyString
  | Literal c :: toks' => String c (substitute i toks' texts)
  | Escape :: toks' => String "%" (substitute i toks' texts)
  | Placeholder :: toks' => nth i texts EmptyString ++ substitute (S i) toks' texts
  end.

(** No literal token is a [%]. *)
Definition proper (toks : list Token) : Prop :=
  Forall (fun tok => match tok with
                     | Literal c => Ascii.eqb c "%" = false
                     | _ => True
                     end) toks.

(** A character that may not follow [%]. *)
Definition illegal (d : ascii) : bool :=
  negb (Ascii.eqb d "%") && negb (Ascii.eqb d "s").

(** The number of [%s] markers of any template, well-formed or not: a [%]
    and the character after it are read together. *)
Fixpoint requested (template : string) : nat :=
  match template with
  | EmptyString => 0
  | String c rest =>
      if Ascii.eqb c "%" then
        match rest with
        | EmptyString => 0
        | String d rest' =>
            if Ascii.eqb d "s" then S (requested rest') else requested rest'
        end
      else requested rest
  end.

(** Some [%] of the template is followed by a character other than [s]
    and [%]. *)
Fixpoint has_illegal_specifier (template : string) : bool :=
  match template with
  | EmptyString => false
  | String c rest =>
      if Ascii.eqb c "%" then
        match rest with
        | EmptyString => false
        | String d rest' => illegal d || has_illegal_specifier rest'
        end
      else has_illegal_specifier rest
  end.

(** The template ends immediately after an unescaped [%]. *)
Fixpoint ends_on_percent (template : string) : bool :=
  match template with
  | EmptyString => false
  | String c rest =>
      if Ascii.eqb c "%" then
        match rest with
        | EmptyString => true
        | String _ rest' => ends_on_percent rest'
        end
      else ends_on_percent rest
  end.

(** *** Rendered text *)

(** [m] returns normally and appends [text] to the stream, whatever the
    stream held before. *)
Definition writes (m : Stm unit) (text : string) : Prop :=
  forall stream, m stream = (Ok tt, stream ++ text).

(** [render(a) == text] *)
Definition renders (a : Arg) (text : string) : Prop :=
  toString [a] = Ok text.

(** Each text with the separator before it. *)
Fixpoint prefixed (sep : string) (texts : list string) : string :=
  match texts with
  | [] => EmptyString
  | t :: texts' => sep ++ t ++ prefixed sep texts'
  end.

(** One type's rendering instantiates the rendering of another: the parts
    of a pair, a tuple or a range, unless the type is streamable itself. *)
Inductive Instantiates : CType -> CType -> Prop :=
| inst_self (T : CType) : Instantiates T T
| inst_first (T1 T2 U : CType) :
    Instantiates T1 U -> Instantiates (StdPair None T1 T2) U
| inst_second (T1 T2 U : CType) :
    Instantiates T2 U -> Instantiates (StdPair None T1 T2) U
| inst_get (Ts : list CType) (T U : CType) :
    In T Ts -> Instantiates T U -> Instantiates (StdTuple None Ts) U
| inst_elem (Elem U : CType) :
    Instantiates Elem U -> Instantiates (Range None Elem) U.

(** What is left over by [scan]. *)
Inductive Leftover : string -> Prop :=
| left_nothing : Leftover ""
| left_percent : Leftover "%"
| left_illegal (d : ascii) (rest : string) :
    illegal d = true -> Leftover (String "%" (String d rest)).

(** What interpreting a template comes to, and the text it has written
    by then: the template is a well-formed prefix followed by nothing or
    by its leftmost defect. *)
Inductive Outcome (template : string) (args : list Arg) (texts : list string)
  : Result unit -> string -> Prop :=
| out_done (toks : list Token) :
    template = template_of toks ->
    proper toks -> placeholders toks <= length args ->
    Outcome template args texts (Ok tt) (substitute 0 toks texts)
| out_unmatched (toks : list Token) :
    template = template_of toks ++ "%" ->
    proper toks -> placeholders toks <= length args ->
    Outcome template args texts (Throw Impl.format_ends_on_percent)
            (substitute 0 toks texts)
| out_illegal (toks : list Token) (d : ascii) (rest : string) :
    template = template_of toks ++ String "%" (String d rest) ->
    illegal d = true ->
    proper toks -> placeholders toks <= length args ->
    Outcome template args texts (Throw Impl.format_illegal_specifier)
            (substitute 0 toks texts)
| out_missing (toks : list Token) (rest : string) :
    template = template_of toks ++ String "%" (String "s" rest) ->
    proper toks -> placeholders toks = length args ->
    Outcome template args texts (Throw Impl.format_requests_more)
            (substitute 0 toks texts).

(** A value is rendered at every type that the compiler accepts and that
    it inhabits. *)
Definition rendered_at (x : Value) : Prop :=
  forall T, Build.accepted (Build.printToStream1 T) = true ->
            has_type T x = true ->
            exists text, writes (Impl.printToStreamTagged T x) text.

(** The template that stands for a text itself: every [%] doubled. *)
Fixpoint escape (text : string) : string :=
  match text with
  | EmptyString => EmptyString
  | String c rest =>
      if Ascii.eqb c "%" then String "%" (String "%" (escape rest))
      else String c (escape rest)
  end.

(** The types for which [printToStream] can be instantiated: a type with
    an [operator<<], or a pair, a tuple with at least one element or a
    range whose parts are such types. *)
Inductive Printable : CType -> Prop :=
| printable_streamable (T : CType) (shl : Inserter) :
    inserter T = Some shl -> Printable T
| printable_pair (T1 T2 : CType) :
    Printable T1 -> Printable T2 -> Printable (StdPair None T1 T2)
| printable_tuple (Ts : list CType) :
    Ts <> [] -> Forall Printable Ts -> Printable (StdTuple None Ts)
| printable_range (Elem : CType) :
    Printable Elem -> Printable (Range None Elem).

(** *** The renderer as the specification words it *)

(** [f x y] for the elements of two lists, pairwise. *)
Fixpoint map2 {A B C} (f : A -> B -> C) (xs : list A) (ys : list B) {struct ys}
  : list C :=
  match xs, ys with
  | x :: xs', y :: ys' => f x y :: map2 f xs' ys'
  | _, _ => []
  end.

(** The text of a value by the table of rendering rules: the native
    textual form for Streamable; ["("], first, [", "], second, [")"] for
    PairLike; the elements joined by [", "] between ["("] and [")"] for
    TupleLike and between ["["] and ["]"] for IterableLike, each part by
    the same table under the category of its own type. *)
Fixpoint spec_render (T : CType) (v : Value) {struct v} : string :=
  match getPrintableCategory T with
  | Streamable =>
      match inserter T with
      | Some native => native v
      | None => EmptyString
      end
  | Pair =>
      match T, v with
      | StdPair _ T1 T2, VPair first second =>
          "(" ++ spec_render T1 first ++ ", " ++ spec_render T2 second ++ ")"
      | _, _ => EmptyString
      end
  | Tuple =>
      match T, v with
      | StdTuple _ Ts, VTuple elems =>
          "(" ++ String.concat ", " (map2 spec_render Ts elems) ++ ")"
      | _, _ => EmptyString
      end
  | Iteratable =>
      match T, v with
      | Range _ Elem, VRange elems =>
          "[" ++ String.concat ", " (map (spec_render Elem) elems) ++ "]"
      | _, _ => EmptyString
      end
  | Unprintable => EmptyString
  end.

Definition spec_render_arg (a : Arg) : string :=
  spec_render (arg_type a) (arg_value a).

(** The code renders a value as the table says. *)
Definition rendered_as_spec (x : Value) : Prop :=
  forall T, Build.accepted (Build.printToStream1 T) = true ->
            has_type T x = true ->
            writes (Impl.printToStreamTagged T x) (spec_render T x).

(** * Properties *)

(** ** Text *)

Lemma append_nil_r (s : string) : s ++ "" = s.
Proof. induction s as [|c s IH]; simpl; [reflexivity | now rewrite IH]. Qed.

Lemma append_assoc (s t u : string) : (s ++ t) ++ u = s ++ t ++ u.
Proof. induction s as [|c s IH]; simpl; [reflexivity | now rewrite IH]. Qed.

(** ** The classifier *)

Section Classifier.

Context {Ty : Type} `{TypeTraits Ty}.

Lemma category_has_shape (T : Ty) : has_shape T (getPrintableCategory T) = true.
Proof.
  unfold getPrintableCategory.
  destruct (isStreamable T) eqn:Es; [exact Es|].
  destruct (isPair T) eqn:Ep; [exact Ep|].
  destruct (isTuple T) eqn:Et; [exact Et|].
  destruct (isIteratable T) eqn:Ei; [exact Ei|].
  reflexivity.
Qed.

Lemma category_is_first (T : Ty) (c : PrintableCategory) :
  rank c < rank (getPrintableCategory T) -> has_shape T c = false.
Proof.
  unfold getPrintableCategory.
  destruct (isStreamable T) eqn:Es; [simpl; lia|].
  destruct (isPair T) eqn:Ep;
    [destruct c; simpl; intros; try lia; assumption|].
  destruct (isTuple T) eqn:Et;
    [destruct c; simpl; intros; try lia; assumption|].
  destruct (isIteratable T) eqn:Ei;
    destruct c; simpl; intros; try lia; assumption.
Qed.

Lemma rank_inj (c c' : PrintableCategory) : rank c = rank c' -> c = c'.
Proof. destruct c, c'; simpl; intros E; try reflexivity; discriminate E. Qed.

Lemma first_match_unique (T : Ty) (c : PrintableCategory) :
  has_shape T c = true ->
  (forall c', rank c' < rank c -> has_shape T c' = false) ->
  getPrintableCategory T = c.
Proof.
  intros Hc Hfirst. apply rank_inj.
  destruct (Nat.lt_total (rank (getPrintableCategory T)) (rank c)) as [L|[E|L]].
  - apply Hfirst in L. rewrite category_has_shape in L. discriminate L.
  - exact E.
  - apply category_is_first in L. rewrite Hc in L. discriminate L.
Qed.

End Classifier.

(** C1: the classifier assigns to every type exactly one category, and it
    is the first match in the order Streamable, Pair, Tuple, Iteratable,
    Unprintable: the assigned category has its shape, none of the
    categories ranked before it does, and no other category is such a
    first match.  A [std::string], which is both streamable and traversable,
    is Streamable. *)
Theorem classifier_first_match :
  (forall (Ty : Type) (traits : TypeTraits Ty) (T : Ty),
      first_match T (getPrintableCategory T) /\
      forall c, first_match T c -> c = getPrintableCategory T) /\
  (isStreamable Types.std_string = true /\
   isIteratable Types.std_string = true /\
   getPrintableCategory Types.std_string = Streamable).
Proof.
  split; [|repeat split].
  intros Ty traits T. split.
  - split; [apply category_has_shape | apply category_is_first].
  - intros c [Hc Hfirst]. symmetry. now apply first_match_unique.
Qed.

(** ** Stream computations *)

Lemma writes_ret : writes (ret tt) "".
Proof. intros s. unfold ret. now rewrite append_nil_r. Qed.

Lemma writes_write (text : string) : writes (write text) text.
Proof. intros s. reflexivity. Qed.

Lemma writes_put (c : ascii) : writes (put c) (String c "").
Proof. intros s. reflexivity. Qed.

Lemma writes_bind (m k : Stm unit) (a b : string) :
  writes m a -> writes k b -> writes (m ;; k) (a ++ b).
Proof.
  intros Hm Hk s. unfold bind. rewrite Hm, Hk. now rewrite append_assoc.
Qed.

Lemma writes_toString (args : list Arg) (text : string) :
  writes (Impl.printToStream args) text -> toString args = Ok text.
Proof.
  intros Hw. unfold toString, with_stringstream, printToStream.
  now rewrite (Hw "").
Qed.

Lemma printToStream_single (a : Arg) (s : ostream) :
  Impl.printToStream [a] s = Impl.printToStreamTagged (arg_type a) (arg_value a) s.
Proof.
  simpl. unfold bind.
  destruct (Impl.printToStreamTagged (arg_type a) (arg_value a) s) as [[[]|e|f] s'];
    reflexivity.
Qed.

Lemma writes_single (a : Arg) (text : string) :
  writes (Impl.printToStreamTagged (arg_type a) (arg_value a)) text <->
  writes (Impl.printToStream [a]) text.
Proof.
  split; intros Hw s; [rewrite printToStream_single | rewrite <- printToStream_single];
    apply Hw.
Qed.

(** ** The renderer *)

(** Induction on values that reaches the elements of tuples and ranges. *)
Lemma Value_nested_ind (P : Value -> Prop) :
  (forall z, P (VInt z)) ->
  (forall c, P (VChar c)) ->
  (forall state, P (VObject state)) ->
  (forall first second, P first -> P second -> P (VPair first second)) ->
  (forall elems, Forall P elems -> P (VTuple elems)) ->
  (forall elems, Forall P elems -> P (VRange elems)) ->
  forall v, P v.
Proof.
  intros Hint Hchar Hobj Hpair Htuple Hrange.
  fix IH 1. intros [z|c|state|first second|elems|elems].
  - apply Hint.
  - apply Hchar.
  - apply Hobj.
  - apply Hpair; apply IH.
  - apply Htuple. induction elems as [|x elems IHelems]; constructor;
      [apply IH | exact IHelems].
  - apply Hrange. induction elems as [|x elems IHelems]; constructor;
      [apply IH | exact IHelems].
Qed.

Lemma printToStreamTagged_eq (T : CType) (arg : Value) :
  Impl.printToStreamTagged T arg =
  match getPrintableCategory T with
  | Streamable => Impl.printToStreamTagged_Streamable T arg
  | Pair => Impl.printToStreamTagged_Pair Impl.printToStreamTagged T arg
  | Tuple => Impl.printToStreamTagged_Tuple Impl.printToStreamTagged T arg
  | Iteratable => Impl.printToStreamTagged_Iteratable Impl.printToStreamTagged T arg
  | Unprintable => Impl.printToStreamTagged_Unprintable T arg
  end.
Proof. destruct arg; reflexivity. Qed.

Lemma build_printToStream1_eq (T : CType) :
  Build.printToStream1 T =
  match getPrintableCategory T with
  | Unprintable => [Build.unprintable_argument]
  | Streamable => []
  | Pair => Build.printToStreamTagged_Pair Build.printToStream1 T
  | Tuple => Build.printToStreamTagged_Tuple Build.printToStream1 T
  | Iteratable => Build.printToStreamTagged_Iteratable Build.printToStream1 T
  end.
Proof. destruct T; reflexivity. Qed.

Lemma category_streamable (T : CType) (shl : Inserter) :
  inserter T = Some shl -> getPrintableCategory T = Streamable.
Proof.
  intros E. unfold getPrintableCategory. simpl. now rewrite E.
Qed.

Lemma accepted_app (ds ds' : list Diagnostic) :
  Build.accepted (ds ++ ds')%list = Build.accepted ds && Build.accepted ds'.
Proof. destruct ds; reflexivity. Qed.

Lemma concat_prefixed (sep t : string) (texts : list string) :
  String.concat sep (t :: texts) = t ++ prefixed sep texts.
Proof.
  revert t. induction texts as [|t' texts IH]; intros t.
  - simpl. now rewrite append_nil_r.
  - change (String.concat sep (t :: t' :: texts))
      with (t ++ sep ++ String.concat sep (t' :: texts)).
    now rewrite IH.
Qed.

Section Loops.

Variable rec : CType -> Value -> Stm unit.

Lemma Iteratable_loop_false (Elem : CType) (elems : list Value) (texts : list string) :
  Forall2 (fun x t => writes (rec Elem x) t) elems texts ->
  writes (Impl.printToStreamTagged_Iteratable_loop rec Elem elems false)
         (prefixed ", " texts).
Proof.
  induction 1 as [|x t elems texts Hx _ IH];
    cbn [Impl.printToStreamTagged_Iteratable_loop prefixed].
  - apply writes_ret.
  - apply writes_bind; [apply writes_write|].
    apply writes_bind; assumption.
Qed.

Lemma Iteratable_loop_true (Elem : CType) (elems : list Value) (texts : list string) :
  Forall2 (fun x t => writes (rec Elem x) t) elems texts ->
  writes (Impl.printToStreamTagged_Iteratable_loop rec Elem elems true)
         (String.concat ", " texts).
Proof.
  intros [|x t elems' texts' Hx Hrest];
    cbn [Impl.printToStreamTagged_Iteratable_loop].
  - apply writes_ret.
  - rewrite concat_prefixed.
    change (t ++ prefixed ", " texts') with ("" ++ t ++ prefixed ", " texts').
    apply writes_bind; [apply writes_ret|].
    apply writes_bind; [assumption|].
    now apply Iteratable_loop_false.
Qed.

Lemma printTupleHelper_writes (Ts : list CType) :
  forall (elems : list Value) (texts : list string) (I TupleSize : nat),
    Forall2 (fun a t => writes (rec (arg_type a) (arg_value a)) t)
            (map (fun p => MkArg (fst p) (snd p)) (combine Ts elems)) texts ->
    length elems = length Ts ->
    Ts <> [] ->
    I + length Ts = TupleSize + 1 ->
    writes (Impl.printTupleHelper rec I TupleSize Ts elems) (String.concat ", " texts).
Proof.
  induction Ts as [|T Ts IH]; intros elems texts I TupleSize Hw Hlen Hne HI;
    [congruence|].
  destruct elems as [|x elems]; [discriminate Hlen|].
  simpl in Hw. inversion Hw as [|a t items texts' Ha Hrest]; subst. simpl in Ha.
  cbn [Impl.printTupleHelper]. simpl in HI, Hlen.
  destruct (Nat.eqb I TupleSize) eqn:E.
  - apply Nat.eqb_eq in E.
    assert (Ts = []) as -> by (destruct Ts; [reflexivity | simpl in HI; lia]).
    inversion Hrest; subst. exact Ha.
  - apply Nat.eqb_neq in E.
    assert (Ts <> []) as Hne' by (intros ->; simpl in HI; lia).
    assert (texts' <> []) as Ht.
    { intros ->. inversion Hrest as [Hnil|]. destruct Ts; [congruence|].
      destruct elems; [discriminate Hlen | discriminate Hnil]. }
    destruct texts' as [|t' texts']; [congruence|].
    change (String.concat ", " (t :: t' :: texts'))
      with (t ++ ", " ++ String.concat ", " (t' :: texts')).
    apply writes_bind; [assumption|].
    apply writes_bind; [apply writes_write|].
    apply IH; [exact Hrest | lia | exact Hne' | lia].
Qed.

End Loops.

Lemma streamable_writes (T : CType) (shl : Inserter) (arg : Value) :
  inserter T = Some shl -> writes (Impl.printToStreamTagged T arg) (shl arg).
Proof.
  intros E. rewrite printToStreamTagged_eq, (category_streamable T shl E).
  unfold Impl.printToStreamTagged_Streamable. rewrite E. apply writes_write.
Qed.

Lemma pair_writes (T1 T2 : CType) (first second : Value) (t1 t2 : string) :
  writes (Impl.printToStreamTagged T1 first) t1 ->
  writes (Impl.printToStreamTagged T2 second) t2 ->
  writes (Impl.printToStreamTagged (StdPair None T1 T2) (VPair first second))
         ("(" ++ t1 ++ ", " ++ t2 ++ ")").
Proof.
  intros H1 H2. rewrite printToStreamTagged_eq.
  change (getPrintableCategory (StdPair None T1 T2)) with Pair.
  cbn [Impl.printToStreamTagged_Pair].
  apply (writes_bind _ _ "(" _); [apply writes_put|].
  apply writes_bind; [assumption|].
  apply writes_bind; [apply writes_write|].
  apply writes_bind; [assumption | apply writes_put].
Qed.

Lemma tuple_writes (Ts : list CType) (elems : list Value) (texts : list string) :
  Forall2 (fun a t => writes (Impl.printToStreamTagged (arg_type a) (arg_value a)) t)
          (map (fun p => MkArg (fst p) (snd p)) (combine Ts elems)) texts ->
  length elems = length Ts ->
  Ts <> [] ->
  writes (Impl.printToStreamTagged (StdTuple None Ts) (VTuple elems))
         ("(" ++ String.concat ", " texts ++ ")").
Proof.
  intros Hw Hlen Hne. rewrite printToStreamTagged_eq.
  change (getPrintableCategory (StdTuple None Ts)) with Tuple.
  cbn [Impl.printToStreamTagged_Tuple].
  apply (writes_bind _ _ "(" _); [apply writes_put|].
  apply writes_bind; [|apply writes_put].
  apply printTupleHelper_writes; [assumption | assumption | assumption | lia].
Qed.

Lemma range_writes (Elem : CType) (elems : list Value) (texts : list string) :
  Forall2 (fun x t => writes (Impl.printToStreamTagged Elem x) t) elems texts ->
  writes (Impl.printToStreamTagged (Range None Elem) (VRange elems))
         ("[" ++ String.concat ", " texts ++ "]").
Proof.
  intros Hw. rewrite printToStreamTagged_eq.
  change (getPrintableCategory (Range None Elem)) with Iteratable.
  cbn [Impl.printToStreamTagged_Iteratable].
  apply (writes_bind _ _ "[" _); [apply writes_put|].
  apply writes_bind; [|apply writes_put].
  now apply Iteratable_loop_true.
Qed.

(** *** Accepted and well-typed arguments are rendered *)

Lemma forallb2_length {A B} (f : A -> B -> bool) (xs : list A) (ys : list B) :
  forallb2 f xs ys = true -> length ys = length xs.
Proof.
  revert xs. induction ys as [|y ys IH]; intros [|x xs]; simpl; try discriminate.
  - reflexivity.
  - intros H. apply andb_true_iff in H as [_ H]. now rewrite (IH xs H).
Qed.

Lemma build_printTupleHelper_accepted (Ts : list CType) :
  forall I TupleSize,
    I + length Ts = TupleSize + 1 ->
    Build.accepted (Build.printTupleHelper Build.printToStream1 I TupleSize Ts) = true ->
    Ts <> [] /\ Forall (fun T => Build.accepted (Build.printToStream1 T) = true) Ts.
Proof.
  induction Ts as [|T Ts IH]; intros I TupleSize HI Hb; [discriminate Hb|].
  split; [discriminate|]. cbn [Build.printTupleHelper] in Hb. simpl in HI.
  destruct (Nat.eqb I TupleSize) eqn:E.
  - apply Nat.eqb_eq in E.
    assert (Ts = []) as -> by (destruct Ts; [reflexivity | simpl in HI; lia]).
    now constructor.
  - rewrite accepted_app in Hb. apply andb_true_iff in Hb as [HT Hrest].
    constructor; [assumption|]. apply (IH (I + 1) TupleSize); [lia | assumption].
Qed.

Lemma tuple_items_rendered (Ts : list CType) :
  forall elems,
    Forall rendered_at elems ->
    Forall (fun T => Build.accepted (Build.printToStream1 T) = true) Ts ->
    forallb2 has_type Ts elems = true ->
    exists texts,
      Forall2 (fun a t => writes (Impl.printToStreamTagged (arg_type a) (arg_value a)) t)
              (map (fun p => MkArg (fst p) (snd p)) (combine Ts elems)) texts.
Proof.
  induction Ts as [|T Ts IH]; intros elems Hall Hb Ht.
  - exists []. constructor.
  - destruct elems as [|x elems]; [discriminate Ht|].
    simpl in Ht. apply andb_true_iff in Ht as [Hx Ht].
    inversion Hall as [|? ? Px Pelems]; subst.
    inversion Hb as [|? ? HT HTs]; subst.
    destruct (Px T HT Hx) as [t Hwt].
    destruct (IH elems Pelems HTs Ht) as [texts Hw].
    exists (t :: texts). simpl. now constructor.
Qed.

Lemma range_items_rendered (Elem : CType) (elems : list Value) :
  Forall rendered_at elems ->
  Build.accepted (Build.printToStream1 Elem) = true ->
  forallb (has_type Elem) elems = true ->
  exists texts,
    Forall2 (fun x t => writes (Impl.printToStreamTagged Elem x) t) elems texts.
Proof.
  intros Hall Hb. induction Hall as [|x elems Px _ IH]; intros Ht.
  - exists []. constructor.
  - simpl in Ht. apply andb_true_iff in Ht as [Hx Ht].
    destruct (Px Elem Hb Hx) as [t Hwt]. destruct (IH Ht) as [texts Hw].
    exists (t :: texts). now constructor.
Qed.

Lemma accepted_typed_rendered (v : Value) : rendered_at v.
Proof.
  induction v as [z|c|state|first second IH1 IH2|elems IH|elems IH]
    using Value_nested_ind;
    intros [shl|shl T1 T2|shl Ts|shl Elem] Hb Ht; try discriminate Ht;
    (destruct shl as [shl|];
     [eexists; apply (streamable_writes _ shl); reflexivity|]);
    try discriminate Hb.
  - rewrite build_printToStream1_eq in Hb.
    change (getPrintableCategory (StdPair None T1 T2)) with Pair in Hb.
    cbn [Build.printToStreamTagged_Pair] in Hb.
    rewrite accepted_app in Hb. apply andb_true_iff in Hb as [Hb1 Hb2].
    simpl in Ht. apply andb_true_iff in Ht as [Ht1 Ht2].
    destruct (IH1 T1 Hb1 Ht1) as [t1 H1]. destruct (IH2 T2 Hb2 Ht2) as [t2 H2].
    eexists. apply pair_writes; eassumption.
  - rewrite build_printToStream1_eq in Hb.
    change (getPrintableCategory (StdTuple None Ts)) with Tuple in Hb.
    cbn [Build.printToStreamTagged_Tuple] in Hb.
    apply build_printTupleHelper_accepted in Hb as [Hne HTs]; [|lia].
    simpl in Ht.
    destruct (tuple_items_rendered Ts elems IH HTs Ht) as [texts Hw].
    eexists. apply tuple_writes; [eassumption | | assumption].
    now apply forallb2_length in Ht.
  - rewrite build_printToStream1_eq in Hb.
    change (getPrintableCategory (Range None Elem)) with Iteratable in Hb.
    cbn [Build.printToStreamTagged_Iteratable] in Hb.
    simpl in Ht.
    destruct (range_items_rendered Elem elems IH Hb Ht) as [texts Hw].
    eexists. apply range_writes; eassumption.
Qed.

Lemma renderable_writes (a : Arg) :
  renderable a = true -> exists text, writes (Impl.printToStream [a]) text.
Proof.
  unfold renderable. intros H. apply andb_true_iff in H as [Hb Ht].
  destruct (accepted_typed_rendered (arg_value a) (arg_type a) Hb Ht) as [t Hw].
  exists t. now apply writes_single.
Qed.

(** ** The template interpreter *)

(** *** One part of the format, character by character *)

Lemma std_find_length (begin : string) (c : ascii) :
  String.length (Impl.std_find begin c) <= String.length begin.
Proof.
  induction begin as [|x rest IH]; simpl; [lia|].
  destruct (Ascii.eqb x c); simpl; lia.
Qed.

Lemma range_self (begin : string) : Impl.range begin begin = "".
Proof.
  unfold Impl.range. rewrite Nat.sub_diag. destruct begin; reflexivity.
Qed.

Lemma range_cons (x : ascii) (rest it : string) :
  String.length it <= String.length rest ->
  Impl.range (String x rest) it = String x (Impl.range rest it).
Proof.
  intros Hle. unfold Impl.range. simpl String.length.
  replace (S (String.length rest) - String.length it)
    with (S (String.length rest - String.length it)) by lia.
  reflexivity.
Qed.

Lemma printFormatPartToStream_loop_eq (begin : string) :
  Impl.printFormatPartToStream_loop begin =
  (let nextPercent := Impl.std_find begin "%" in
   write (Impl.range begin nextPercent) ;;
   match nextPercent with
   | EmptyString => ret (EmptyString, false)
   | String _ begin' =>
       match begin' with
       | EmptyString => throw Impl.format_ends_on_percent
       | String c begin'' =>
           if Ascii.eqb c "%" then
             put "%" ;; Impl.printFormatPartToStream_loop begin''
           else if Ascii.eqb c "s" then ret (begin'', true)
           else throw Impl.format_illegal_specifier
       end
   end).
Proof. destruct begin; reflexivity. Qed.

Lemma printFormatPartToStream_loop_same (begin : string) (s : ostream) :
  Impl.printFormatPartToStream_loop begin s = Impl.printFormatPartToStream begin s.
Proof.
  destruct begin as [|x rest]; [|reflexivity].
  cbn. unfold ret. now rewrite append_nil_r.
Qed.

Lemma part_literal (c : ascii) (rest : string) (s : ostream) :
  Ascii.eqb c "%" = false ->
  Impl.printFormatPartToStream (String c rest) s =
  Impl.printFormatPartToStream rest (s ++ String c "").
Proof.
  intros Hc. rewrite <- (printFormatPartToStream_loop_same rest).
  unfold Impl.printFormatPartToStream.
  rewrite (printFormatPartToStream_loop_eq (String c rest)),
          (printFormatPartToStream_loop_eq rest).
  cbn [Impl.std_find]. rewrite Hc. cbv zeta.
  rewrite range_cons by apply std_find_length.
  unfold bind at 1 3, write. now rewrite append_assoc.
Qed.

Lemma part_percent_end (s : ostream) :
  Impl.printFormatPartToStream "%" s = (Throw Impl.format_ends_on_percent, s).
Proof. cbn. now rewrite append_nil_r. Qed.

Lemma part_escape (rest : string) (s : ostream) :
  Impl.printFormatPartToStream (String "%" (String "%" rest)) s =
  Impl.printFormatPartToStream rest (s ++ "%").
Proof.
  rewrite <- (printFormatPartToStream_loop_same rest).
  unfold Impl.printFormatPartToStream.
  rewrite (printFormatPartToStream_loop_eq (String "%" (String "%" rest))).
  cbn [Impl.std_find Ascii.eqb Bool.eqb]. cbv zeta. rewrite range_self.
  cbn [Ascii.eqb Bool.eqb]. unfold bind at 1 2, write, put, write.
  now rewrite append_nil_r.
Qed.

Lemma part_placeholder (rest : string) (s : ostream) :
  Impl.printFormatPartToStream (String "%" (String "s" rest)) s = (Ok (rest, true), s).
Proof.
  unfold Impl.printFormatPartToStream.
  rewrite printFormatPartToStream_loop_eq.
  cbn [Impl.std_find Ascii.eqb Bool.eqb]. cbv zeta. rewrite range_self.
  cbn [Ascii.eqb Bool.eqb]. unfold bind, write, ret. now rewrite append_nil_r.
Qed.

Lemma part_illegal (d : ascii) (rest : string) (s : ostream) :
  illegal d = true ->
  Impl.printFormatPartToStream (String "%" (String d rest)) s =
  (Throw Impl.format_illegal_specifier, s).
Proof.
  unfold illegal. intros Hd. apply andb_true_iff in Hd as [Hp Hs].
  apply negb_true_iff in Hp, Hs.
  unfold Impl.printFormatPartToStream.
  rewrite printFormatPartToStream_loop_eq.
  cbn [Impl.std_find Ascii.eqb Bool.eqb]. cbv zeta. rewrite range_self.
  rewrite Hp, Hs. unfold bind, write, throw. now rewrite append_nil_r.
Qed.

(** *** The interpreter, character by character *)

Lemma printToStreamF_bind (format : string) (args : list Arg) :
  Impl.printToStreamF format args =
  (r <- Impl.printFormatPartToStream format ;;
   let '(it, printArgument) := r in
   match args with
   | [] => if printArgument then throw Impl.format_requests_more else ret tt
   | arg :: args' =>
       if printArgument then
         Impl.printToStream [arg] ;; Impl.printToStreamF it args'
       else assert (String.eqb it "") ;; ret tt
   end).
Proof. destruct args; reflexivity. Qed.

Lemma F_empty (args : list Arg) (s : ostream) :
  Impl.printToStreamF "" args s = (Ok tt, s).
Proof. destruct args; reflexivity. Qed.

Lemma F_literal (c : ascii) (rest : string) (args : list Arg) (s : ostream) :
  Ascii.eqb c "%" = false ->
  Impl.printToStreamF (String c rest) args s =
  Impl.printToStreamF rest args (s ++ String c "").
Proof.
  intros Hc. rewrite !printToStreamF_bind. unfold bind at 1 3.
  now rewrite part_literal.
Qed.

Lemma F_escape (rest : string) (args : list Arg) (s : ostream) :
  Impl.printToStreamF (String "%" (String "%" rest)) args s =
  Impl.printToStreamF rest args (s ++ "%").
Proof.
  rewrite !printToStreamF_bind. unfold bind at 1 3. now rewrite part_escape.
Qed.

Lemma F_percent_end (args : list Arg) (s : ostream) :
  Impl.printToStreamF "%" args s = (Throw Impl.format_ends_on_percent, s).
Proof.
  rewrite printToStreamF_bind. unfold bind at 1. now rewrite part_percent_end.
Qed.

Lemma F_illegal (d : ascii) (rest : string) (args : list Arg) (s : ostream) :
  illegal d = true ->
  Impl.printToStreamF (String "%" (String d rest)) args s =
  (Throw Impl.format_illegal_specifier, s).
Proof.
  intros Hd. rewrite printToStreamF_bind. unfold bind at 1.
  now rewrite part_illegal.
Qed.

Lemma F_placeholder_nil (rest : string) (s : ostream) :
  Impl.printToStreamF (String "%" (String "s" rest)) [] s =
  (Throw Impl.format_requests_more, s).
Proof.
  rewrite printToStreamF_bind. unfold bind at 1. now rewrite part_placeholder.
Qed.

Lemma F_placeholder_cons (rest : string) (a : Arg) (args : list Arg)
      (t : string) (s : ostream) :
  writes (Impl.printToStream [a]) t ->
  Impl.printToStreamF (String "%" (String "s" rest)) (a :: args) s =
  Impl.printToStreamF rest args (s ++ t).
Proof.
  intros Hw. rewrite printToStreamF_bind. unfold bind at 1.
  rewrite part_placeholder. unfold bind at 1. now rewrite Hw.
Qed.

(** *** A well-formed prefix of the template *)

Lemma F_prefix (toks : list Token) :
  forall (rest : string) (used remaining : list Arg) (pre texts post : list string)
         (s : ostream),
    proper toks ->
    Forall2 (fun a t => writes (Impl.printToStream [a]) t) used texts ->
    length used = placeholders toks ->
    Impl.printToStreamF (template_of toks ++ rest) (used ++ remaining)%list s =
    Impl.printToStreamF rest remaining
      (s ++ substitute (length pre) toks (pre ++ texts ++ post)%list).
Proof.
  induction toks as [|tok toks IH];
    intros rest used remaining pre texts post s Hp Hw Hlen.
  - destruct used; [|discriminate Hlen]. simpl. now rewrite append_nil_r.
  - inversion Hp as [|? ? Htok Hp']; subst. destruct tok as [c| |].
    + cbn [template_of spelling substitute append].
      rewrite F_literal by assumption.
      rewrite (IH rest used remaining pre texts post) by assumption.
      now rewrite append_assoc.
    + cbn [template_of spelling substitute append].
      rewrite F_escape.
      rewrite (IH rest used remaining pre texts post) by assumption.
      now rewrite append_assoc.
    + destruct Hw as [|a t used texts Ha Hw]; [discriminate Hlen|].
      cbn [template_of spelling substitute append app].
      rewrite (F_placeholder_cons _ a _ t) by assumption.
      injection Hlen as Hlen.
      rewrite (IH rest used remaining (pre ++ [t])%list texts post) by assumption.
      rewrite append_assoc, nth_middle.
      rewrite length_app, Nat.add_1_r, <- !app_assoc. reflexivity.
Qed.

(** *** Reading a template *)

(** Induction on a template, one token at a time. *)
Lemma template_ind (P : string -> Prop) :
  P "" ->
  (forall c rest, Ascii.eqb c "%" = false -> P rest -> P (String c rest)) ->
  P "%" ->
  (forall rest, P rest -> P (String "%" (String "%" rest))) ->
  (forall rest, P rest -> P (String "%" (String "s" rest))) ->
  (forall d rest, illegal d = true -> P (String "%" (String d rest))) ->
  forall template, P template.
Proof.
  intros Hnil Hlit Hend Hesc Hpl Hill. fix IH 1. intros [|c rest].
  - exact Hnil.
  - destruct (Ascii.eqb c "%") eqn:Ec.
    + apply Ascii.eqb_eq in Ec. subst c. destruct rest as [|d rest'].
      * exact Hend.
      * destruct (Ascii.eqb d "%") eqn:Ep.
        { apply Ascii.eqb_eq in Ep. subst d. apply Hesc, IH. }
        destruct (Ascii.eqb d "s") eqn:Es.
        { apply Ascii.eqb_eq in Es. subst d. apply Hpl, IH. }
        apply Hill. unfold illegal. now rewrite Ep, Es.
    + apply Hlit; [exact Ec | apply IH].
Qed.

Lemma scan_spec (template : string) :
  template = template_of (tokens template) ++ snd (scan template) /\
  proper (tokens template) /\
  Leftover (snd (scan template)).
Proof.
  unfold tokens.
  induction template as [|c rest Hc IH| |rest IH|rest IH|d rest Hd] using template_ind.
  - repeat split; constructor.
  - cbn [scan]. rewrite Hc. destruct (scan rest) as [toks left].
    simpl in *. destruct IH as (E & Hp & Hl). repeat split.
    + now rewrite <- E.
    + constructor; assumption.
    + assumption.
  - repeat split; constructor.
  - cbn. destruct (scan rest) as [toks left].
    simpl in *. destruct IH as (E & Hp & Hl). repeat split.
    + now rewrite <- E.
    + constructor; [exact I | assumption].
    + assumption.
  - cbn. destruct (scan rest) as [toks left].
    simpl in *. destruct IH as (E & Hp & Hl). repeat split.
    + now rewrite <- E.
    + constructor; [exact I | assumption].
    + assumption.
  - unfold illegal in Hd. apply andb_true_iff in Hd as [Hp Hs].
    cbn [scan Ascii.eqb Bool.eqb].
    apply negb_true_iff in Hp as Hp', Hs as Hs'. rewrite Hp', Hs'. simpl.
    repeat split; [constructor | constructor].
    unfold illegal. now rewrite Hp, Hs.
Qed.

Lemma scan_template_of (toks : list Token) :
  proper toks -> scan (template_of toks) = (toks, "").
Proof.
  induction 1 as [|tok toks Htok _ IH]; [reflexivity|].
  destruct tok as [c| |]; cbn [template_of spelling append scan].
  - now rewrite Htok, IH.
  - cbn. now rewrite IH.
  - cbn. now rewrite IH.
Qed.

Lemma well_formed_template_of (template : string) :
  well_formed template = true ->
  template = template_of (tokens template) /\ proper (tokens template).
Proof.
  unfold well_formed. intros H. apply String.eqb_eq in H.
  destruct (scan_spec template) as (E & Hp & _). rewrite H, append_nil_r in E.
  now split.
Qed.

Lemma template_of_well_formed (toks : list Token) :
  proper toks ->
  well_formed (template_of toks) = true /\ tokens (template_of toks) = toks.
Proof.
  intros Hp. unfold well_formed, tokens. now rewrite scan_template_of.
Qed.

Lemma template_of_app (toks toks' : list Token) :
  template_of (toks ++ toks')%list = template_of toks ++ template_of toks'.
Proof.
  induction toks as [|tok toks IH]; [reflexivity|].
  simpl. now rewrite IH, append_assoc.
Qed.

(** The placeholder that the arguments do not reach. *)
Lemma placeholders_split (toks : list Token) :
  forall n, proper toks -> n < placeholders toks ->
    exists before after,
      toks = (before ++ Placeholder :: after)%list /\
      proper before /\ placeholders before = n.
Proof.
  induction toks as [|tok toks IH]; intros n Hp Hn; [simpl in Hn; lia|].
  inversion Hp as [|? ? Htok Hp']; subst.
  destruct tok as [c| |].
  - destruct (IH n Hp' Hn) as (before & after & -> & Hb & Hc).
    exists (Literal c :: before), after. repeat split; [constructor|]; assumption.
  - destruct (IH n Hp' Hn) as (before & after & -> & Hb & Hc).
    exists (Escape :: before), after. repeat split; [constructor|]; assumption.
  - destruct n as [|n].
    + exists [], toks. repeat split. constructor.
    + simpl in Hn. destruct (IH n Hp' ltac:(lia)) as (before & after & -> & Hb & Hc).
      exists (Placeholder :: before), after.
      repeat split; [constructor; assumption | simpl; now rewrite Hc].
Qed.

Lemma renderable_all_write (args : list Arg) :
  Forall (fun a => renderable a = true) args ->
  exists texts, Forall2 (fun a t => writes (Impl.printToStream [a]) t) args texts.
Proof.
  induction 1 as [|a args Ha _ [texts IH]].
  - exists []. constructor.
  - destruct (renderable_writes a Ha) as [t Ht]. exists (t :: texts). now constructor.
Qed.

Lemma Forall2_writes_renders (args : list Arg) (texts : list string) :
  Forall2 (fun a t => writes (Impl.printToStream [a]) t) args texts ->
  Forall2 renders args texts.
Proof.
  induction 1; constructor; [now apply writes_toString | assumption].
Qed.

(** *** What the interpreter does with any template *)

Lemma F_prefix_args (toks : list Token) (rest : string) (args : list Arg)
      (texts : list string) (s : ostream) :
  proper toks ->
  Forall2 (fun a t => writes (Impl.printToStream [a]) t) args texts ->
  placeholders toks <= length args ->
  Impl.printToStreamF (template_of toks ++ rest) args s =
  Impl.printToStreamF rest (skipn (placeholders toks) args)
    (s ++ substitute 0 toks texts).
Proof.
  intros Hp Hw Hle.
  rewrite <- (firstn_skipn (placeholders toks) args) in Hw.
  apply Forall2_app_inv_l in Hw as (used & post & Hused & _ & ->).
  rewrite <- (firstn_skipn (placeholders toks) args) at 1.
  apply (F_prefix toks rest _ _ [] used post s Hp Hused).
  rewrite length_firstn. lia.
Qed.

Lemma Outcome_sound (template : string) (args : list Arg) (texts : list string)
      (r : Result unit) (out : string) :
  Forall2 (fun a t => writes (Impl.printToStream [a]) t) args texts ->
  Outcome template args texts r out ->
  forall s, Impl.printToStreamF template args s = (r, s ++ out).
Proof.
  intros Hw [toks -> Hp Hle|toks -> Hp Hle|toks d rest -> Hd Hp Hle|toks rest -> Hp Hle] s.
  - rewrite <- (append_nil_r (template_of toks)).
    rewrite (F_prefix_args toks "" args texts s Hp Hw Hle). apply F_empty.
  - rewrite (F_prefix_args toks _ args texts s Hp Hw Hle). apply F_percent_end.
  - rewrite (F_prefix_args toks _ args texts s Hp Hw Hle). now apply F_illegal.
  - rewrite (F_prefix_args toks _ args texts s Hp Hw) by lia.
    rewrite Hle, skipn_all. apply F_placeholder_nil.
Qed.

Lemma Outcome_total (template : string) (args : list Arg) (texts : list string) :
  exists r out, Outcome template args texts r out.
Proof.
  destruct (scan_spec template) as (E & Hp & Hl).
  destruct (le_lt_dec (placeholders (tokens template)) (length args)) as [Hle|Hlt].
  - inversion Hl as [Hn|Hn|d rest Hd Hn]; rewrite <- Hn in E.
    + rewrite append_nil_r in E. do 2 eexists. eapply out_done; eassumption.
    + do 2 eexists. eapply out_unmatched; eassumption.
    + do 2 eexists. eapply out_illegal; eassumption.
  - destruct (placeholders_split _ _ Hp Hlt) as (before & after & Et & Hb & Hc).
    rewrite Et, template_of_app in E. cbn [template_of spelling] in E.
    rewrite !append_assoc in E. cbn [append] in E.
    do 2 eexists. eapply out_missing; eassumption.
Qed.

Lemma toStringF_ok (template : string) (args : list Arg) (out : string) :
  (forall s, Impl.printToStreamF template args s = (Ok tt, s ++ out)) ->
  toStringF template args = Ok out.
Proof.
  intros H. unfold toStringF, with_stringstream, printToStreamF. now rewrite (H "").
Qed.

Lemma toStringF_Outcome (template : string) (args : list Arg) (texts : list string)
      (r : Result unit) (out : string) :
  Forall2 (fun a t => writes (Impl.printToStream [a]) t) args texts ->
  Outcome template args texts r out ->
  toStringF template args =
  match r with Ok _ => Ok out | Throw e => Throw e | Abort f => Abort f end.
Proof.
  intros Hw Ho. unfold toStringF, with_stringstream, printToStreamF.
  rewrite (Outcome_sound _ _ _ _ _ Hw Ho ""). destruct r as [[]|e|f]; reflexivity.
Qed.

(** ** Rendering pairs, sequences and lists of values *)

Example render_nested :
  toString [MkArg (Types.std_vector (Types.std_pair Types.int Types.int))
                  (VRange [VPair (VInt 1) (VInt 2); VPair (VInt 3) (VInt 4)])]
  = Ok "[(1, 2), (3, 4)]".
Proof. reflexivity. Qed.

Example render_tuple :
  toString [MkArg (Types.std_tuple [Types.int; Types.std_string; Types.char])
                  (VTuple [VInt 1; arg_value (Types.a_string "two"); VChar "3"])]
  = Ok "(1, two, 3)".
Proof. reflexivity. Qed.

Lemma renders_writes (a : Arg) (text : string) :
  renderable a = true -> renders a text -> writes (Impl.printToStream [a]) text.
Proof.
  intros Ha Hr. destruct (renderable_writes a Ha) as [t Hw].
  unfold renders in Hr. rewrite (writes_toString _ _ Hw) in Hr.
  now injection Hr as <-.
Qed.

Lemma not_streamable (T : CType) : isStreamable T = false -> inserter T = None.
Proof. simpl. destruct (inserter T); [discriminate | reflexivity]. Qed.

(** C6 (amended): for every pair [(a, b)] whose type has no [operator<<]
    of its own and whose components are renderable, the pair renders as
    ["(" + render(a) + ", " + render(b) + ")"], where each component is
    rendered at its own type, whatever category that type has. *)
Theorem pair_rendering (shl : option Inserter) (T1 T2 : CType) (first second : Value) :
  isStreamable (StdPair shl T1 T2) = false ->
  renderable (MkArg T1 first) = true ->
  renderable (MkArg T2 second) = true ->
  exists t1 t2,
    renders (MkArg T1 first) t1 /\
    renders (MkArg T2 second) t2 /\
    renders (MkArg (StdPair shl T1 T2) (VPair first second))
            ("(" ++ t1 ++ ", " ++ t2 ++ ")").
Proof.
  intros Hs H1 H2. apply not_streamable in Hs. simpl in Hs. subst shl.
  destruct (renderable_writes _ H1) as [t1 Hw1].
  destruct (renderable_writes _ H2) as [t2 Hw2].
  exists t1, t2. repeat split; try now apply writes_toString.
  apply writes_toString, writes_single. simpl.
  apply pair_writes; now apply (writes_single (MkArg _ _)).
Qed.

Lemma pair_rendering_witness :
  exists t1 t2,
    renders (Types.a_int 1) t1 /\
    renders (Types.a_string "two") t2 /\
    renders (MkArg (Types.std_pair Types.int Types.std_string)
                   (VPair (VInt 1) (arg_value (Types.a_string "two"))))
            ("(" ++ t1 ++ ", " ++ t2 ++ ")").
Proof.
  apply (pair_rendering None Types.int Types.std_string); reflexivity.
Defined.

(** C6 as stated fails: a pair type for which the program declares an
    [operator<<] is Streamable, and is written by that operator. *)
Lemma pair_rendering_streamable_pair :
  ~ (forall (shl : option Inserter) (T1 T2 : CType) (first second : Value) (t1 t2 : string),
        renders (MkArg T1 first) t1 ->
        renders (MkArg T2 second) t2 ->
        renders (MkArg (StdPair shl T1 T2) (VPair first second))
                ("(" ++ t1 ++ ", " ++ t2 ++ ")")).
Proof.
  intros H.
  specialize (H (Some Types.shl_area) Types.Metres Types.Metres
                (VObject "3") (VObject "4") "3m" "4m" eq_refl eq_refl).
  change (renders (MkArg Types.Area (VPair (VObject "3") (VObject "4"))) "(3m, 4m)") in H.
  assert (renders (MkArg Types.Area (VPair (VObject "3") (VObject "4"))) "3m x 4m") as H'
      by reflexivity.
  unfold renders in H, H'. rewrite H' in H. discriminate H.
Qed.

(** C7 (amended): for every finite sequence whose type has no [operator<<]
    of its own and whose elements are renderable, the sequence renders as
    ["["], the rendered elements in traversal order separated by [", "],
    and ["]"]; the empty sequence renders as ["[]"]. *)
Theorem range_rendering (shl : option Inserter) (Elem : CType) (elems : list Value) :
  isStreamable (Range shl Elem) = false ->
  Forall (fun x => renderable (MkArg Elem x) = true) elems ->
  (exists texts,
      Forall2 (fun x t => renders (MkArg Elem x) t) elems texts /\
      renders (MkArg (Range shl Elem) (VRange elems))
              ("[" ++ String.concat ", " texts ++ "]")) /\
  renders (MkArg (Range shl Elem) (VRange [])) "[]".
Proof.
  intros Hs Hall. apply not_streamable in Hs. simpl in Hs. subst shl. split.
  - assert (exists texts,
               Forall2 (fun x t => writes (Impl.printToStreamTagged Elem x) t) elems texts)
      as [texts Hw].
    { induction Hall as [|x elems Hx _ [texts IH]].
      - exists []. constructor.
      - destruct (renderable_writes _ Hx) as [t Ht]. exists (t :: texts).
        constructor; [now apply (writes_single (MkArg _ _)) | assumption]. }
    exists texts. split.
    + clear Hall. induction Hw as [|x t elems texts Hx _ IH]; constructor;
        [|assumption].
      now apply writes_toString, (writes_single (MkArg _ _)).
    + apply writes_toString, writes_single. simpl. now apply range_writes.
  - apply writes_toString, writes_single. simpl.
    apply (range_writes Elem [] []). constructor.
Qed.

Lemma range_rendering_witness :
  (exists texts,
      Forall2 (fun x t => renders (MkArg (Types.std_pair Types.int Types.int) x) t)
              [VPair (VInt 1) (VInt 2); VPair (VInt 3) (VInt 4)] texts /\
      renders (MkArg (Types.std_vector (Types.std_pair Types.int Types.int))
                     (VRange [VPair (VInt 1) (VInt 2); VPair (VInt 3) (VInt 4)]))
              ("[" ++ String.concat ", " texts ++ "]")) /\
  renders (MkArg (Types.std_vector (Types.std_pair Types.int Types.int)) (VRange [])) "[]".
Proof.
  apply (range_rendering None (Types.std_pair Types.int Types.int)).
  - reflexivity.
  - repeat constructor.
Defined.

(** C7 as stated fails: a [std::string] is a finite sequence of [char]s,
    each renderable, yet it is Streamable and is written as its
    characters, without brackets or separators. *)
Lemma range_rendering_string :
  ~ (forall (shl : option Inserter) (Elem : CType) (elems : list Value) (texts : list string),
        Forall2 (fun x t => renders (MkArg Elem x) t) elems texts ->
        renders (MkArg (Range shl Elem) (VRange elems))
                ("[" ++ String.concat ", " texts ++ "]")).
Proof.
  intros H.
  specialize (H (Some Types.shl_string) Types.char [VChar "a"; VChar "b"] ["a"; "b"]).
  assert (renders (Types.a_string "ab") "[a, b]") as Hr.
  { apply H. repeat constructor. }
  discriminate Hr.
Qed.

Lemma concat_empty_cons (t : string) (texts : list string) :
  String.concat "" (t :: texts) = t ++ String.concat "" texts.
Proof.
  destruct texts as [|t' texts]; [simpl; now rewrite append_nil_r | reflexivity].
Qed.

Lemma printToStream_writes (args : list Arg) (texts : list string) :
  Forall2 (fun a t => writes (Impl.printToStream [a]) t) args texts ->
  writes (Impl.printToStream args) (String.concat "" texts).
Proof.
  induction 1 as [|a t args texts Ha _ IH].
  - apply writes_ret.
  - rewrite concat_empty_cons. cbn [Impl.printToStream].
    apply writes_bind; [now apply writes_single | assumption].
Qed.

Lemma spec_render_eq (T : CType) (v : Value) :
  spec_render T v =
  match getPrintableCategory T with
  | Streamable =>
      match inserter T with
      | Some native => native v
      | None => EmptyString
      end
  | Pair =>
      match T, v with
      | StdPair _ T1 T2, VPair first second =>
          "(" ++ spec_render T1 first ++ ", " ++ spec_render T2 second ++ ")"
      | _, _ => EmptyString
      end
  | Tuple =>
      match T, v with
      | StdTuple _ Ts, VTuple elems =>
          "(" ++ String.concat ", " (map2 spec_render Ts elems) ++ ")"
      | _, _ => EmptyString
      end
  | Iteratable =>
      match T, v with
      | Range _ Elem, VRange elems =>
          "[" ++ String.concat ", " (map (spec_render Elem) elems) ++ "]"
      | _, _ => EmptyString
      end
  | Unprintable => EmptyString
  end.
Proof. destruct v; reflexivity. Qed.

Lemma spec_render_streamable (T : CType) (shl : Inserter) (v : Value) :
  inserter T = Some shl -> spec_render T v = shl v.
Proof.
  intros E. now rewrite spec_render_eq, (category_streamable T shl E), E.
Qed.

Lemma tuple_items_as_spec (Ts : list CType) :
  forall elems,
    Forall rendered_as_spec elems ->
    Forall (fun T => Build.accepted (Build.printToStream1 T) = true) Ts ->
    forallb2 has_type Ts elems = true ->
    Forall2 (fun a t => writes (Impl.printToStreamTagged (arg_type a) (arg_value a)) t)
            (map (fun p => MkArg (fst p) (snd p)) (combine Ts elems))
            (map2 spec_render Ts elems).
Proof.
  induction Ts as [|T Ts IH]; intros elems Hall Hb Ht.
  - destruct elems; constructor.
  - destruct elems as [|x elems]; [discriminate Ht|].
    simpl in Ht. apply andb_true_iff in Ht as [Hx Ht].
    inversion Hall as [|? ? Px Pelems]; subst.
    inversion Hb as [|? ? HT HTs]; subst.
    simpl. constructor; [now apply Px | now apply IH].
Qed.

Lemma range_items_as_spec (Elem : CType) (elems : list Value) :
  Forall rendered_as_spec elems ->
  Build.accepted (Build.printToStream1 Elem) = true ->
  forallb (has_type Elem) elems = true ->
  Forall2 (fun x t => writes (Impl.printToStreamTagged Elem x) t)
          elems (map (spec_render Elem) elems).
Proof.
  intros Hall Hb. induction Hall as [|x elems Px _ IH]; intros Ht.
  - constructor.
  - simpl in Ht. apply andb_true_iff in Ht as [Hx Ht].
    simpl. constructor; [now apply Px | now apply IH].
Qed.

Lemma accepted_typed_rendered_as_spec (v : Value) : rendered_as_spec v.
Proof.
  induction v as [z|c|state|first second IH1 IH2|elems IH|elems IH]
    using Value_nested_ind;
    intros [shl|shl T1 T2|shl Ts|shl Elem] Hb Ht; try discriminate Ht;
    (destruct shl as [shl|];
     [match goal with
      | |- writes (Impl.printToStreamTagged ?T ?v) _ =>
          rewrite (spec_render_streamable T shl v eq_refl);
          now apply (streamable_writes T shl)
      end|]);
    try discriminate Hb.
  - rewrite build_printToStream1_eq in Hb.
    change (getPrintableCategory (StdPair None T1 T2)) with Pair in Hb.
    cbn [Build.printToStreamTagged_Pair] in Hb.
    rewrite accepted_app in Hb. apply andb_true_iff in Hb as [Hb1 Hb2].
    simpl in Ht. apply andb_true_iff in Ht as [Ht1 Ht2].
    rewrite spec_render_eq.
    change (getPrintableCategory (StdPair None T1 T2)) with Pair.
    apply pair_writes; [now apply IH1 | now apply IH2].
  - rewrite build_printToStream1_eq in Hb.
    change (getPrintableCategory (StdTuple None Ts)) with Tuple in Hb.
    cbn [Build.printToStreamTagged_Tuple] in Hb.
    apply build_printTupleHelper_accepted in Hb as [Hne HTs]; [|lia].
    simpl in Ht. rewrite spec_render_eq.
    change (getPrintableCategory (StdTuple None Ts)) with Tuple.
    apply tuple_writes; [now apply tuple_items_as_spec | | assumption].
    now apply forallb2_length in Ht.
  - rewrite build_printToStream1_eq in Hb.
    change (getPrintableCategory (Range None Elem)) with Iteratable in Hb.
    cbn [Build.printToStreamTagged_Iteratable] in Hb.
    simpl in Ht. rewrite spec_render_eq.
    change (getPrintableCategory (Range None Elem)) with Iteratable.
    apply range_writes. now apply range_items_as_spec.
Qed.

Lemma renderable_writes_spec (a : Arg) :
  renderable a = true -> writes (Impl.printToStream [a]) (spec_render_arg a).
Proof.
  unfold renderable. intros H. apply andb_true_iff in H as [Hb Ht].
  apply writes_single. now apply accepted_typed_rendered_as_spec.
Qed.

Lemma renderable_all_write_spec (args : list Arg) :
  Forall (fun a => renderable a = true) args ->
  Forall2 (fun a t => writes (Impl.printToStream [a]) t) args (map spec_render_arg args).
Proof.
  induction 1 as [|a args Ha _ IH]; simpl; constructor;
    [now apply renderable_writes_spec | assumption].
Qed.

(** C9: for every list of renderable values, [toString] is the
    concatenation, in argument order and with nothing between or around
    them, of the texts of the values, where the text of each value is the
    one that the table of rendering rules gives and is what [toString]
    returns for that value alone; for no argument it is the empty text.
    [printToStream] appends the same text to its stream. *)
Theorem render_all_concatenates (args : list Arg) :
  Forall (fun a => renderable a = true) args ->
  Forall2 renders args (map spec_render_arg args) /\
  toString args = Ok (String.concat "" (map spec_render_arg args)) /\
  (forall sink,
      printToStream args sink
      = (Ok tt, sink ++ String.concat "" (map spec_render_arg args))) /\
  toString [] = Ok "".
Proof.
  intros Hall. pose proof (renderable_all_write_spec args Hall) as Hw.
  split; [now apply Forall2_writes_renders|].
  pose proof (printToStream_writes args _ Hw) as H.
  split; [now apply writes_toString|]. split; [exact H | reflexivity].
Qed.

Lemma render_all_concatenates_witness :
  Forall2 renders
          [Types.a_int 42; Types.a_string "ab";
           MkArg (Types.std_vector (Types.std_pair Types.int Types.int))
                 (VRange [VPair (VInt 1) (VInt 2); VPair (VInt 3) (VInt 4)])]
          ["42"; "ab"; "[(1, 2), (3, 4)]"] /\
  toString [Types.a_int 42; Types.a_string "ab";
            MkArg (Types.std_vector (Types.std_pair Types.int Types.int))
                  (VRange [VPair (VInt 1) (VInt 2); VPair (VInt 3) (VInt 4)])]
  = Ok "42ab[(1, 2), (3, 4)]" /\
  (forall sink,
      printToStream [Types.a_int 42; Types.a_string "ab";
                     MkArg (Types.std_vector (Types.std_pair Types.int Types.int))
                           (VRange [VPair (VInt 1) (VInt 2); VPair (VInt 3) (VInt 4)])] sink
      = (Ok tt, sink ++ "42ab[(1, 2), (3, 4)]")) /\
  toString [] = Ok "".
Proof.
  apply (render_all_concatenates
           [Types.a_int 42; Types.a_string "ab";
            MkArg (Types.std_vector (Types.std_pair Types.int Types.int))
                  (VRange [VPair (VInt 1) (VInt 2); VPair (VInt 3) (VInt 4)])]).
  repeat constructor.
Defined.

(** ** Interpreting templates *)

Example interpret_two_arguments :
  toStringF "%s and %s" [Types.a_int 1; Types.a_int 2] = Ok "1 and 2".
Proof. reflexivity. Qed.

Example interpret_escape : toStringF "100%% done" [] = Ok "100% done".
Proof. reflexivity. Qed.

Example interpret_missing : toStringF "%s" [] = Throw Impl.format_requests_more.
Proof. reflexivity. Qed.

Example interpret_surplus :
  toStringF "no placeholders" [Types.a_int 1; Types.a_int 2] = Ok "no placeholders".
Proof. reflexivity. Qed.

Example interpret_illegal : toStringF "bad %q" [] = Throw Impl.format_illegal_specifier.
Proof. reflexivity. Qed.

Example interpret_trailing : toStringF "trailing %" [] = Throw Impl.format_ends_on_percent.
Proof. reflexivity. Qed.

(** C2: for every well-formed template and every list of renderable
    arguments at least as long as the number of its placeholders,
    [toStringF] returns the template's literal characters in order, one
    [%] for each [%%], and the text of argument [i] in place of
    placeholder [i], counted from the left; [printToStreamF] appends that
    text to its stream. *)
Theorem interpret_well_formed (template : string) (args : list Arg) :
  well_formed template = true ->
  placeholders (tokens template) <= length args ->
  Forall (fun a => renderable a = true) args ->
  exists texts,
    Forall2 renders args texts /\
    toStringF template args = Ok (substitute 0 (tokens template) texts) /\
    forall sink,
      printToStreamF template args sink
      = (Ok tt, sink ++ substitute 0 (tokens template) texts).
Proof.
  intros Hwf Hle Hall.
  destruct (renderable_all_write args Hall) as [texts Hw].
  destruct (well_formed_template_of template Hwf) as [E Hp].
  assert (Outcome template args texts (Ok tt) (substitute 0 (tokens template) texts))
    as Ho by now apply out_done.
  exists texts. split; [now apply Forall2_writes_renders|]. split.
  - apply (toStringF_Outcome _ _ _ _ _ Hw Ho).
  - apply (Outcome_sound _ _ _ _ _ Hw Ho).
Qed.

Lemma interpret_well_formed_witness :
  exists texts,
    Forall2 renders [Types.a_int 1; Types.a_string "two"] texts /\
    toStringF "%s is 50%% of %s" [Types.a_int 1; Types.a_string "two"]
    = Ok (substitute 0 (tokens "%s is 50%% of %s") texts) /\
    forall sink,
      printToStreamF "%s is 50%% of %s" [Types.a_int 1; Types.a_string "two"] sink
      = (Ok tt, sink ++ substitute 0 (tokens "%s is 50%% of %s") texts).
Proof.
  apply interpret_well_formed; [reflexivity | simpl; lia | repeat constructor].
Defined.

(** C3 (amended): if a [%s] of the template has no argument left, and the
    template is well-formed up to that [%s], so that no illegal specifier
    comes before it, then [toStringF] and [printToStreamF] leave with the
    exception "formatstring requests more arguments then provided". *)
Theorem missing_argument_raised (prefix rest : string) (args : list Arg) :
  well_formed prefix = true ->
  placeholders (tokens prefix) = length args ->
  Forall (fun a => renderable a = true) args ->
  toStringF (prefix ++ "%s" ++ rest) args = Throw Impl.format_requests_more /\
  forall sink,
    fst (printToStreamF (prefix ++ "%s" ++ rest) args sink)
    = Throw Impl.format_requests_more.
Proof.
  intros Hwf Hn Hall.
  destruct (renderable_all_write args Hall) as [texts Hw].
  destruct (well_formed_template_of prefix Hwf) as [E Hp].
  assert (Outcome (prefix ++ "%s" ++ rest) args texts
                  (Throw Impl.format_requests_more)
                  (substitute 0 (tokens prefix) texts)) as Ho.
  { apply (out_missing _ _ _ (tokens prefix) rest); [|assumption|assumption].
    now rewrite <- E. }
  split.
  - apply (toStringF_Outcome _ _ _ _ _ Hw Ho).
  - intros sink. unfold printToStreamF.
    now rewrite (Outcome_sound _ _ _ _ _ Hw Ho).
Qed.

Lemma missing_argument_raised_witness :
  toStringF ("%s and " ++ "%s" ++ "!") [Types.a_int 1] = Throw Impl.format_requests_more /\
  forall sink,
    fst (printToStreamF ("%s and " ++ "%s" ++ "!") [Types.a_int 1] sink)
    = Throw Impl.format_requests_more.
Proof.
  apply missing_argument_raised; [reflexivity | reflexivity | repeat constructor].
Defined.

(** C3 as stated fails: in ["%q%s"] the [%s] has no argument, but the
    illegal specifier before it is met first. *)
Lemma missing_argument_after_illegal :
  ~ (forall (template : string) (args : list Arg),
        Forall (fun a => renderable a = true) args ->
        length args < requested template ->
        toStringF template args = Throw Impl.format_requests_more).
Proof.
  intros H. specialize (H "%q%s" [] (Forall_nil _)).
  assert (toStringF "%q%s" [] = Throw Impl.format_requests_more) as E
      by (apply H; simpl; lia).
  discriminate E.
Qed.

(** C4: when a well-formed template has been consumed and arguments are
    left over, [toStringF] returns the text built from the arguments that
    the placeholders used; the surplus arguments, whatever they are, add
    nothing to it and raise nothing. *)
Theorem surplus_arguments_discarded (template : string) (args surplus : list Arg) :
  well_formed template = true ->
  placeholders (tokens template) = length args ->
  Forall (fun a => renderable a = true) args ->
  exists texts,
    Forall2 renders args texts /\
    toStringF template (args ++ surplus)%list
    = Ok (substitute 0 (tokens template) texts) /\
    toStringF template (args ++ surplus)%list = toStringF template args /\
    forall sink,
      printToStreamF template (args ++ surplus)%list sink
      = (Ok tt, sink ++ substitute 0 (tokens template) texts).
Proof.
  intros Hwf Hn Hall.
  destruct (renderable_all_write args Hall) as [texts Hw].
  destruct (well_formed_template_of template Hwf) as [E Hp].
  assert (forall sink,
             Impl.printToStreamF template (args ++ surplus)%list sink
             = (Ok tt, sink ++ substitute 0 (tokens template) texts)) as Hrun.
  { intros sink. rewrite E at 1. rewrite <- (append_nil_r (template_of _)).
    rewrite (F_prefix (tokens template) "" args surplus [] texts [] sink Hp Hw)
      by now symmetry.
    rewrite F_empty. simpl. now rewrite app_nil_r. }
  assert (Outcome template args texts (Ok tt) (substitute 0 (tokens template) texts))
    as Ho by (apply out_done; [assumption | assumption | lia]).
  exists texts. split; [now apply Forall2_writes_renders|].
  split; [now apply toStringF_ok|].
  split; [|exact Hrun].
  rewrite (toStringF_Outcome _ _ _ _ _ Hw Ho). now apply toStringF_ok.
Qed.

Lemma surplus_arguments_discarded_witness :
  exists texts,
    Forall2 renders [Types.a_int 1] texts /\
    toStringF "only %s" ([Types.a_int 1] ++ [Types.a_int 2; Types.a_string "x"])%list
    = Ok (substitute 0 (tokens "only %s") texts) /\
    toStringF "only %s" ([Types.a_int 1] ++ [Types.a_int 2; Types.a_string "x"])%list
    = toStringF "only %s" [Types.a_int 1] /\
    forall sink,
      printToStreamF "only %s"
                     ([Types.a_int 1] ++ [Types.a_int 2; Types.a_string "x"])%list sink
      = (Ok tt, sink ++ substitute 0 (tokens "only %s") texts).
Proof.
  apply surplus_arguments_discarded; [reflexivity | reflexivity | repeat constructor].
Defined.

Lemma Outcome_of_run (template : string) (args : list Arg) (texts : list string)
      (r : Result unit) (sink sink' : ostream) :
  Forall2 (fun a t => writes (Impl.printToStream [a]) t) args texts ->
  Impl.printToStreamF template args sink = (r, sink') ->
  exists out, Outcome template args texts r out /\ sink' = sink ++ out.
Proof.
  intros Hw Hrun. destruct (Outcome_total template args texts) as (r' & out & Ho).
  rewrite (Outcome_sound _ _ _ _ _ Hw Ho) in Hrun. injection Hrun as <- <-.
  now exists out.
Qed.

Lemma Outcome_of_toStringF (template : string) (args : list Arg) (texts : list string)
      (e : invalid_argument) :
  Forall2 (fun a t => writes (Impl.printToStream [a]) t) args texts ->
  toStringF template args = Throw e ->
  exists out, Outcome template args texts (Throw e) out.
Proof.
  intros Hw Hrun. destruct (Outcome_total template args texts) as (r & out & Ho).
  rewrite (toStringF_Outcome _ _ _ _ _ Hw Ho) in Hrun.
  destruct r as [[]|e'|f]; try discriminate Hrun.
  injection Hrun as <-. now exists out.
Qed.

(** C5 (amended): [toStringF] raises "illegal format-specifier" exactly
    when the template is a well-formed prefix, whose placeholders all find
    an argument, followed by a [%] and a character other than [s] and [%];
    it raises "unmatched %" exactly when the template is such a prefix
    followed by a [%] at its very end; and on a well-formed template with
    enough arguments it raises nothing.  So of several defects, the
    leftmost decides. *)
Theorem template_errors (template : string) (args : list Arg) :
  Forall (fun a => renderable a = true) args ->
  (toStringF template args = Throw Impl.format_illegal_specifier <->
   exists prefix d rest,
     template = prefix ++ String "%" (String d rest) /\
     illegal d = true /\
     well_formed prefix = true /\
     placeholders (tokens prefix) <= length args) /\
  (toStringF template args = Throw Impl.format_ends_on_percent <->
   exists prefix,
     template = prefix ++ "%" /\
     well_formed prefix = true /\
     placeholders (tokens prefix) <= length args) /\
  (well_formed template = true ->
   placeholders (tokens template) <= length args ->
   exists out, toStringF template args = Ok out).
Proof.
  intros Hall. destruct (renderable_all_write args Hall) as [texts Hw].
  split; [|split].
  - split.
    + intros Hrun. destruct (Outcome_of_toStringF _ _ _ _ Hw Hrun) as [out Ho].
      inversion Ho as [| |toks d rest E Hd Hp Hle|]; subst.
      destruct (template_of_well_formed toks Hp) as [Hwf Ht].
      exists (template_of toks), d, rest. rewrite Ht. now repeat split.
    + intros (prefix & d & rest & -> & Hd & Hwf & Hle).
      destruct (well_formed_template_of prefix Hwf) as [E Hp].
      apply (toStringF_Outcome _ _ texts (Throw Impl.format_illegal_specifier)
                               (substitute 0 (tokens prefix) texts) Hw).
      apply (out_illegal _ _ _ (tokens prefix) d rest); try assumption.
      now rewrite <- E.
  - split.
    + intros Hrun. destruct (Outcome_of_toStringF _ _ _ _ Hw Hrun) as [out Ho].
      inversion Ho as [|toks E Hp Hle| |]; subst.
      destruct (template_of_well_formed toks Hp) as [Hwf Ht].
      exists (template_of toks). rewrite Ht. now repeat split.
    + intros (prefix & -> & Hwf & Hle).
      destruct (well_formed_template_of prefix Hwf) as [E Hp].
      apply (toStringF_Outcome _ _ texts (Throw Impl.format_ends_on_percent)
                               (substitute 0 (tokens prefix) texts) Hw).
      apply (out_unmatched _ _ _ (tokens prefix)); try assumption.
      now rewrite <- E.
  - intros Hwf Hle. destruct (well_formed_template_of template Hwf) as [E Hp].
    exists (substitute 0 (tokens template) texts).
    apply (toStringF_Outcome _ _ texts (Ok tt) _ Hw). now apply out_done.
Qed.

Lemma template_errors_witness :
  (toStringF "%s%q%" [Types.a_int 1] = Throw Impl.format_illegal_specifier <->
   exists prefix d rest,
     "%s%q%" = prefix ++ String "%" (String d rest) /\
     illegal d = true /\
     well_formed prefix = true /\
     placeholders (tokens prefix) <= length [Types.a_int 1]) /\
  (toStringF "%s%q%" [Types.a_int 1] = Throw Impl.format_ends_on_percent <->
   exists prefix,
     "%s%q%" = prefix ++ "%" /\
     well_formed prefix = true /\
     placeholders (tokens prefix) <= length [Types.a_int 1]) /\
  (well_formed "%s%q%" = true ->
   placeholders (tokens "%s%q%") <= length [Types.a_int 1] ->
   exists out, toStringF "%s%q%" [Types.a_int 1] = Ok out).
Proof.
  apply template_errors. repeat constructor.
Defined.

(** C5 as stated fails: ["%q%"] ends immediately after an unescaped [%],
    but the illegal specifier before it is met first, and only one
    exception leaves the call. *)
Lemma template_errors_both_defects :
  ~ (forall (template : string) (args : list Arg),
        Forall (fun a => renderable a = true) args ->
        (toStringF template args = Throw Impl.format_illegal_specifier <->
         has_illegal_specifier template = true) /\
        (toStringF template args = Throw Impl.format_ends_on_percent <->
         ends_on_percent template = true)).
Proof.
  intros H. destruct (H "%q%" [] (Forall_nil _)) as [_ [_ Hend]].
  specialize (Hend eq_refl). discriminate Hend.
Qed.

(** The same with a placeholder that has no argument: ["%s%q"] has an
    illegal specifier, and the missing argument is met first. *)
Example illegal_after_missing :
  has_illegal_specifier "%s%q" = true /\
  toStringF "%s%q" [] = Throw Impl.format_requests_more.
Proof. split; reflexivity. Qed.

Lemma Forall2_renders_writes (args : list Arg) (texts : list string) :
  Forall (fun a => renderable a = true) args ->
  Forall2 renders args texts ->
  Forall2 (fun a t => writes (Impl.printToStream [a]) t) args texts.
Proof.
  intros Hall Hr. induction Hr as [|a t args texts Ha _ IH]; constructor;
    inversion Hall; subst; [now apply renders_writes | now apply IH].
Qed.

(** C10: [printToStreamF] leaves with an exception exactly when the
    template is a well-formed prefix, whose placeholders all find an
    argument, followed by a defect: a [%] at the very end, a [%] before a
    character other than [s] and [%], or a [%s] with no argument left.
    The stream then holds what it held before, followed by the literal
    text and the rendered arguments of that prefix: what was written
    before the defect was met is not taken back. *)
Theorem partial_output_kept (template : string) (args : list Arg) (texts : list string)
        (e : invalid_argument) (sink sink' : ostream) :
  Forall (fun a => renderable a = true) args ->
  Forall2 renders args texts ->
  (printToStreamF template args sink = (Throw e, sink') <->
   exists prefix rest,
     template = prefix ++ rest /\
     well_formed prefix = true /\
     placeholders (tokens prefix) <= length args /\
     ((e = Impl.format_ends_on_percent /\ rest = "%") \/
      (e = Impl.format_illegal_specifier /\
       exists d rest', rest = String "%" (String d rest') /\ illegal d = true) \/
      (e = Impl.format_requests_more /\
       (exists rest', rest = String "%" (String "s" rest')) /\
       placeholders (tokens prefix) = length args)) /\
     sink' = sink ++ substitute 0 (tokens prefix) texts).
Proof.
  intros Hall Hr. pose proof (Forall2_renders_writes args texts Hall Hr) as Hw.
  unfold printToStreamF. split.
  - intros Hrun. destruct (Outcome_of_run _ _ _ _ _ _ Hw Hrun) as (out & Ho & ->).
    inversion Ho as [|toks E Hp Hle|toks d rest E Hd Hp Hle|toks rest E Hp Hle]; subst;
      destruct (template_of_well_formed toks Hp) as [Hwf Ht];
      eexists (template_of toks), _; rewrite Ht;
      (split; [reflexivity|]); (split; [assumption|]); (split; [lia|]);
      (split; [|reflexivity]).
    + left. now split.
    + right; left. split; [reflexivity|]. now exists d, rest.
    + right; right. split; [reflexivity|]. split; [now exists rest | assumption].
  - intros (prefix & rest & -> & Hwf & Hle & Hdefect & ->).
    destruct (well_formed_template_of prefix Hwf) as [E Hp].
    apply (Outcome_sound _ _ texts _ _ Hw).
    destruct Hdefect as [[-> ->]|[[-> (d & rest' & -> & Hd)]|[-> [[rest' ->] Hn]]]].
    + apply (out_unmatched _ _ _ (tokens prefix)); try assumption. now rewrite <- E.
    + apply (out_illegal _ _ _ (tokens prefix) d rest'); try assumption.
      now rewrite <- E.
    + apply (out_missing _ _ _ (tokens prefix) rest'); try assumption.
      now rewrite <- E.
Qed.

Lemma partial_output_kept_witness :
  printToStreamF "ab%scd%%e%q%s" [Types.a_int 1; Types.a_int 2] "X"
  = (Throw Impl.format_illegal_specifier, "Xab1cd%e") <->
  exists prefix rest,
    "ab%scd%%e%q%s" = prefix ++ rest /\
    well_formed prefix = true /\
    placeholders (tokens prefix) <= length [Types.a_int 1; Types.a_int 2] /\
    ((Impl.format_illegal_specifier = Impl.format_ends_on_percent /\ rest = "%") \/
     (Impl.format_illegal_specifier = Impl.format_illegal_specifier /\
      exists d rest', rest = String "%" (String d rest') /\ illegal d = true) \/
     (Impl.format_illegal_specifier = Impl.format_requests_more /\
      (exists rest', rest = String "%" (String "s" rest')) /\
      placeholders (tokens prefix) = length [Types.a_int 1; Types.a_int 2])) /\
    "Xab1cd%e" = "X" ++ substitute 0 (tokens prefix) ["1"; "2"].
Proof.
  apply partial_output_kept; repeat constructor.
Defined.

(** The three exceptions, each with the text written before it. *)
Example partial_output_examples :
  printToStreamF "ab%scd%%e%q%s" [Types.a_int 1; Types.a_int 2] "X"
  = (Throw Impl.format_illegal_specifier, "Xab1cd%e") /\
  printToStreamF "%s, %s" [Types.a_int 1] "X"
  = (Throw Impl.format_requests_more, "X1, ") /\
  printToStreamF "100%% of %s%" [Types.a_int 1] "X"
  = (Throw Impl.format_ends_on_percent, "X100% of 1").
Proof. repeat split. Qed.

(** ** Unprintable types *)

Lemma build_printTupleHelper_In (d : Diagnostic) (T : CType) (Ts : list CType) :
  forall I TupleSize,
    I + length Ts = TupleSize + 1 ->
    In T Ts ->
    In d (Build.printToStream1 T) ->
    In d (Build.printTupleHelper Build.printToStream1 I TupleSize Ts).
Proof.
  induction Ts as [|T' Ts IH]; intros I TupleSize HI Hin Hd; [destruct Hin|].
  cbn [Build.printTupleHelper]. simpl in HI.
  destruct (Nat.eqb I TupleSize) eqn:E.
  - apply Nat.eqb_eq in E.
    assert (Ts = []) as -> by (destruct Ts; [reflexivity | simpl in HI; lia]).
    destruct Hin as [->|[]]. exact Hd.
  - apply in_or_app. destruct Hin as [->|Hin]; [now left | right].
    apply IH; [lia | assumption | assumption].
Qed.

Lemma Instantiates_rejected (U T : CType) :
  Instantiates U T ->
  getPrintableCategory T = Unprintable ->
  In Build.unprintable_argument (Build.printToStream1 U).
Proof.
  intros Hi Hc.
  induction Hi as [T|T1 T2 U _ IH|T1 T2 U _ IH|Ts T U Hin _ IH|Elem U _ IH].
  - rewrite build_printToStream1_eq, Hc. now left.
  - rewrite build_printToStream1_eq. apply in_or_app. left. now apply IH.
  - rewrite build_printToStream1_eq. apply in_or_app. right. now apply IH.
  - rewrite build_printToStream1_eq.
    apply (build_printTupleHelper_In _ T); [lia | assumption | now apply IH].
  - rewrite build_printToStream1_eq. now apply IH.
Qed.

Lemma In_not_accepted (d : Diagnostic) (ds : list Diagnostic) :
  In d ds -> Build.accepted ds = false.
Proof. destruct ds; [intros [] | reflexivity]. Qed.

Lemma accepted_flat_map (Ts : list CType) :
  Build.accepted (flat_map Build.printToStream1 Ts) = true ->
  Forall (fun T => Build.accepted (Build.printToStream1 T) = true) Ts.
Proof.
  induction Ts as [|T Ts IH]; intros H; constructor;
    simpl in H; rewrite accepted_app in H; apply andb_true_iff in H as [H1 H2];
    [assumption | now apply IH].
Qed.

Lemma accepted_typed_renderable (args : list Arg) :
  Build.accepted (flat_map Build.printToStream1 (map arg_type args)) = true ->
  Forall (fun a => has_type (arg_type a) (arg_value a) = true) args ->
  Forall (fun a => renderable a = true) args.
Proof.
  intros Hb Ht. apply accepted_flat_map in Hb.
  induction Ht as [|a args Ha _ IH]; constructor; inversion Hb; subst.
  - unfold renderable. now apply andb_true_iff.
  - now apply IH.
Qed.

(** C8: a type that the classifier assigns to Unprintable makes the
    compiler reject, with the diagnostic of the [static_assert], every
    call of [printToStream], [toString], [printToStreamF] or [toStringF]
    that would render a value of it, be it an argument or a part of one;
    and in a program that the compiler accepts, the body for Unprintable,
    which has no definition, is never reached: rendering returns normally
    and interpreting a template returns or throws. *)
Theorem unprintable_rejected_at_build_time :
  (forall (T U : CType) (Ts : list CType),
      getPrintableCategory T = Unprintable ->
      Instantiates U T ->
      In U Ts ->
      In Build.unprintable_argument (Build.printToStream Ts) /\
      In Build.unprintable_argument (Build.printToStreamF Ts) /\
      Build.accepted (Build.printToStream Ts) = false /\
      Build.accepted (Build.printToStreamF Ts) = false) /\
  (forall (args : list Arg) (sink : ostream),
      Build.accepted (Build.printToStream (map arg_type args)) = true ->
      Forall (fun a => has_type (arg_type a) (arg_value a) = true) args ->
      exists text, printToStream args sink = (Ok tt, sink ++ text)) /\
  (forall (format : string) (args : list Arg) (sink : ostream) (f : Fault),
      Build.accepted (Build.printToStreamF (map arg_type args)) = true ->
      Forall (fun a => has_type (arg_type a) (arg_value a) = true) args ->
      fst (printToStreamF format args sink) <> Abort f).
Proof.
  split; [|split].
  - intros T U Ts Hc Hi Hin.
    assert (In Build.unprintable_argument (flat_map Build.printToStream1 Ts)) as H.
    { apply in_flat_map. exists U. split; [assumption|].
      now apply (Instantiates_rejected U T). }
    repeat split; try exact H; now apply (In_not_accepted Build.unprintable_argument).
  - intros args sink Hb Ht.
    pose proof (accepted_typed_renderable args Hb Ht) as Hall.
    destruct (renderable_all_write args Hall) as [texts Hw].
    exists (String.concat "" texts). now apply printToStream_writes.
  - intros format args sink f Hb Ht.
    pose proof (accepted_typed_renderable args Hb Ht) as Hall.
    destruct (renderable_all_write args Hall) as [texts Hw].
    destruct (Outcome_total format args texts) as (r & out & Ho).
    unfold printToStreamF. rewrite (Outcome_sound _ _ _ _ _ Hw Ho). simpl.
    destruct Ho; discriminate.
Qed.

Lemma unprintable_rejected_at_build_time_witness :
  (In Build.unprintable_argument
      (Build.printToStream [Types.int; Types.std_vector (Types.std_pair Types.int Types.Opaque)]) /\
   In Build.unprintable_argument
      (Build.printToStreamF [Types.int; Types.std_vector (Types.std_pair Types.int Types.Opaque)]) /\
   Build.accepted
     (Build.printToStream [Types.int; Types.std_vector (Types.std_pair Types.int Types.Opaque)])
   = false /\
   Build.accepted
     (Build.printToStreamF [Types.int; Types.std_vector (Types.std_pair Types.int Types.Opaque)])
   = false) /\
  (exists text,
      printToStream [Types.a_int 1; Types.a_string "x"] "" = (Ok tt, "" ++ text)) /\
  fst (printToStreamF "%s%q" [Types.a_int 1; Types.a_string "x"] "") <> Abort NoDefinition.
Proof.
  destruct unprintable_rejected_at_build_time as (Hreject & Hrender & Hformat).
  split; [|split].
  - apply (Hreject Types.Opaque (Types.std_vector (Types.std_pair Types.int Types.Opaque))).
    + reflexivity.
    + apply inst_elem, inst_second, inst_self.
    + right. left. reflexivity.
  - apply Hrender; [reflexivity | repeat constructor].
  - apply Hformat; [reflexivity | repeat constructor].
Defined.

(** * Further properties of the renderer *)

Lemma items_of_combine (items : list Arg) :
  map (fun p => MkArg (fst p) (snd p))
      (combine (map arg_type items) (map arg_value items)) = items.
Proof.
  induction items as [|[T v] items IH]; [reflexivity|]. simpl. now rewrite IH.
Qed.

(** X1: a tuple whose type has no [operator<<] of its own, with at least
    one element and renderable elements, renders as ["("], the rendered
    elements in positional order separated by [", "], and [")"]. *)
Theorem tuple_rendering (shl : option Inserter) (items : list Arg) :
  isStreamable (StdTuple shl (map arg_type items)) = false ->
  items <> [] ->
  Forall (fun a => renderable a = true) items ->
  exists texts,
    Forall2 renders items texts /\
    renders (MkArg (StdTuple shl (map arg_type items)) (VTuple (map arg_value items)))
            ("(" ++ String.concat ", " texts ++ ")").
Proof.
  intros Hs Hne Hall. apply not_streamable in Hs. simpl in Hs. subst shl.
  destruct (renderable_all_write items Hall) as [texts Hw].
  exists texts. split; [now apply Forall2_writes_renders|].
  apply writes_toString, writes_single. simpl. apply tuple_writes.
  - rewrite items_of_combine.
    clear Hall Hne. induction Hw as [|a t items texts Ha _ IH]; constructor;
      [now apply writes_single | assumption].
  - now rewrite !length_map.
  - destruct items; [congruence | discriminate].
Qed.

Lemma tuple_rendering_witness :
  exists texts,
    Forall2 renders [Types.a_int 1; Types.a_string "two"; Types.a_int 3] texts /\
    renders (MkArg (StdTuple None (map arg_type [Types.a_int 1; Types.a_string "two"; Types.a_int 3]))
                   (VTuple (map arg_value [Types.a_int 1; Types.a_string "two"; Types.a_int 3])))
            ("(" ++ String.concat ", " texts ++ ")").
Proof.
  apply tuple_rendering; [reflexivity | discriminate | repeat constructor].
Defined.

(** X2: a tuple of two elements and the pair of the same two components,
    when neither the tuple type nor the pair type has an [operator<<] of
    its own, are written in exactly the same way, whatever the components
    are and whatever becomes of rendering them. *)
Theorem tuple_of_two_as_pair (shl_tuple shl_pair : option Inserter) (T1 T2 : CType)
        (first second : Value) (sink : ostream) :
  isStreamable (StdTuple shl_tuple [T1; T2]) = false ->
  isStreamable (StdPair shl_pair T1 T2) = false ->
  printToStream [MkArg (StdTuple shl_tuple [T1; T2]) (VTuple [first; second])] sink
  = printToStream [MkArg (StdPair shl_pair T1 T2) (VPair first second)] sink.
Proof.
  intros Ht Hp. apply not_streamable in Ht, Hp. simpl in Ht, Hp. subst shl_tuple shl_pair.
  unfold printToStream. rewrite !printToStream_single. simpl arg_type. simpl arg_value.
  rewrite !printToStreamTagged_eq.
  change (getPrintableCategory (StdTuple None [T1; T2])) with Tuple.
  change (getPrintableCategory (StdPair None T1 T2)) with Pair.
  cbn [Impl.printToStreamTagged_Tuple Impl.printToStreamTagged_Pair
       Impl.printTupleHelper length Nat.eqb Nat.add].
  unfold bind.
  destruct (put "(" sink) as [[[]|e|f] s0]; try reflexivity.
  destruct (Impl.printToStreamTagged T1 first s0) as [[[]|e|f] s1]; reflexivity.
Qed.

Lemma tuple_of_two_as_pair_witness :
  printToStream [MkArg (StdTuple None [Types.int; Types.Metres])
                       (VTuple [VInt 1; VObject "2"])] "X"
  = printToStream [MkArg (StdPair None Types.int Types.Metres)
                         (VPair (VInt 1) (VObject "2"))] "X".
Proof.
  apply tuple_of_two_as_pair; reflexivity.
Defined.

(** With an [operator<<] of its own the pair is written by that operator,
    and the tuple of the same components is not. *)
Example tuple_of_two_not_as_streamable_pair :
  toString [MkArg Types.Area (VPair (VObject "3") (VObject "4"))] = Ok "3m x 4m" /\
  toString [MkArg (StdTuple None [Types.Metres; Types.Metres])
                  (VTuple [VObject "3"; VObject "4"])] = Ok "(3m, 4m)".
Proof. split; reflexivity. Qed.

(** X3: a value of a type that has an [operator<<] is written by that
    operator and by nothing else, also when the type is a pair, a tuple
    or a range. *)
Theorem streamable_rendering (T : CType) (shl : Inserter) (v : Value) :
  inserter T = Some shl ->
  toString [MkArg T v] = Ok (shl v) /\
  forall sink, printToStream [MkArg T v] sink = (Ok tt, sink ++ shl v).
Proof.
  intros E.
  assert (writes (Impl.printToStream [MkArg T v]) (shl v)) as Hw
      by (apply writes_single; simpl; now apply streamable_writes).
  split; [now apply writes_toString | exact Hw].
Qed.

Lemma streamable_rendering_witness :
  toString [MkArg Types.Area (VPair (VObject "3") (VObject "4"))]
  = Ok (Types.shl_area (VPair (VObject "3") (VObject "4"))) /\
  forall sink,
    printToStream [MkArg Types.Area (VPair (VObject "3") (VObject "4"))] sink
    = (Ok tt, sink ++ Types.shl_area (VPair (VObject "3") (VObject "4"))).
Proof.
  apply streamable_rendering. reflexivity.
Defined.

(** * Further properties of instantiation *)

(** Induction on types that reaches the element types of tuples. *)
Lemma CType_nested_ind (P : CType -> Prop) :
  (forall shl, P (Plain shl)) ->
  (forall shl T1 T2, P T1 -> P T2 -> P (StdPair shl T1 T2)) ->
  (forall shl Ts, Forall P Ts -> P (StdTuple shl Ts)) ->
  (forall shl Elem, P Elem -> P (Range shl Elem)) ->
  forall T, P T.
Proof.
  intros Hplain Hpair Htuple Hrange.
  fix IH 1. intros [shl|shl T1 T2|shl Ts|shl Elem].
  - apply Hplain.
  - apply Hpair; apply IH.
  - apply Htuple. induction Ts as [|T Ts IHTs]; constructor;
      [apply IH | exact IHTs].
  - apply Hrange. apply IH.
Qed.

Lemma build_streamable (T : CType) (shl : Inserter) :
  inserter T = Some shl -> Build.printToStream1 T = [].
Proof.
  intros E. now rewrite build_printToStream1_eq, (category_streamable T shl E).
Qed.

Lemma build_printTupleHelper_In_inv (d : Diagnostic) (Ts : list CType) :
  forall I TupleSize,
    In d (Build.printTupleHelper Build.printToStream1 I TupleSize Ts) ->
    d = TupleIndexOutOfRange \/
    exists T, In T Ts /\ In d (Build.printToStream1 T).
Proof.
  induction Ts as [|T Ts IH]; intros I TupleSize Hin.
  - destruct Hin as [<-|[]]. now left.
  - cbn [Build.printTupleHelper] in Hin. destruct (Nat.eqb I TupleSize).
    + right. exists T. split; [now left | assumption].
    + apply in_app_or in Hin as [Hin|Hin].
      * right. exists T. split; [now left | assumption].
      * destruct (IH _ _ Hin) as [->|(T' & HT' & Hd)]; [now left|].
        right. exists T'. split; [now right | assumption].
Qed.

Lemma rejected_Instantiates (U : CType) :
  In Build.unprintable_argument (Build.printToStream1 U) ->
  exists T, Instantiates U T /\ getPrintableCategory T = Unprintable.
Proof.
  induction U as [shl|shl T1 T2 IH1 IH2|shl Ts IH|shl Elem IH] using CType_nested_ind;
    intros Hin;
    (destruct shl as [shl|];
     [match type of Hin with
      | context [Build.printToStream1 ?T] =>
          rewrite (build_streamable T shl eq_refl) in Hin
      end; destruct Hin|]).
  - exists (Plain None). split; [constructor | reflexivity].
  - rewrite build_printToStream1_eq in Hin.
    change (getPrintableCategory (StdPair None T1 T2)) with Pair in Hin.
    cbn [Build.printToStreamTagged_Pair] in Hin.
    apply in_app_or in Hin as [Hin|Hin].
    + destruct (IH1 Hin) as (T & Hi & Hc). exists T. split; [now apply inst_first | assumption].
    + destruct (IH2 Hin) as (T & Hi & Hc). exists T. split; [now apply inst_second | assumption].
  - rewrite build_printToStream1_eq in Hin.
    change (getPrintableCategory (StdTuple None Ts)) with Tuple in Hin.
    cbn [Build.printToStreamTagged_Tuple] in Hin.
    apply build_printTupleHelper_In_inv in Hin as [Hd|(T' & HT' & Hd)];
      [discriminate Hd|].
    rewrite Forall_forall in IH. destruct (IH T' HT' Hd) as (T & Hi & Hc).
    exists T. split; [now apply (inst_get Ts T') | assumption].
  - rewrite build_printToStream1_eq in Hin.
    change (getPrintableCategory (Range None Elem)) with Iteratable in Hin.
    cbn [Build.printToStreamTagged_Iteratable] in Hin.
    destruct (IH Hin) as (T & Hi & Hc). exists T. split; [now apply inst_elem | assumption].
Qed.

(** X4: the [static_assert] of [printToStream] fires for a list of
    argument types exactly when one of them is, or has as a part that is
    rendered, a type of category Unprintable: it is never raised for a
    call all of whose rendered parts have a category. *)
Theorem static_assert_exactly_for_unprintable (Ts : list CType) :
  In Build.unprintable_argument (Build.printToStream Ts) <->
  exists U T, In U Ts /\ Instantiates U T /\ getPrintableCategory T = Unprintable.
Proof.
  unfold Build.printToStream. rewrite in_flat_map. split.
  - intros (U & HU & Hin). destruct (rejected_Instantiates U Hin) as (T & Hi & Hc).
    now exists U, T.
  - intros (U & T & HU & Hi & Hc). exists U. split; [assumption|].
    now apply (Instantiates_rejected U T).
Qed.

Lemma build_printTupleHelper_accepts (Ts : list CType) :
  forall I TupleSize,
    I + length Ts = TupleSize + 1 ->
    Ts <> [] ->
    Forall (fun T => Build.accepted (Build.printToStream1 T) = true) Ts ->
    Build.accepted (Build.printTupleHelper Build.printToStream1 I TupleSize Ts) = true.
Proof.
  induction Ts as [|T Ts IH]; intros I TupleSize HI Hne Hall; [congruence|].
  inversion Hall as [|? ? HT HTs]; subst.
  cbn [Build.printTupleHelper]. simpl in HI.
  destruct (Nat.eqb I TupleSize) eqn:E; [assumption|].
  apply Nat.eqb_neq in E. rewrite accepted_app, HT. simpl.
  apply IH; [lia | | assumption]. intros ->. simpl in HI. lia.
Qed.

(** X5: the compiler accepts the instantiation of [printToStream] for a
    type exactly when the type has an [operator<<], or is a pair, a tuple
    with at least one element or a range, all of whose parts are accepted
    in turn.  So [std::tuple<>], although its category is Tuple, is not
    accepted. *)
Theorem accepted_iff_Printable (T : CType) :
  Build.accepted (Build.printToStream1 T) = true <-> Printable T.
Proof.
  induction T as [shl|shl T1 T2 IH1 IH2|shl Ts IH|shl Elem IH] using CType_nested_ind;
    (destruct shl as [shl|];
     [split; intros _;
      [now apply (printable_streamable _ shl)
      | match goal with
        | |- context [Build.printToStream1 ?T] =>
            now rewrite (build_streamable T shl eq_refl)
        end]|]).
  - split; [discriminate|]. intros H. inversion H as [? ? E| | |]. discriminate E.
  - rewrite build_printToStream1_eq.
    change (getPrintableCategory (StdPair None T1 T2)) with Pair.
    cbn [Build.printToStreamTagged_Pair]. rewrite accepted_app, andb_true_iff, IH1, IH2.
    split.
    + intros [H1 H2]. now constructor.
    + intros H. inversion H as [? ? E| | |]; [discriminate E | now split].
  - rewrite build_printToStream1_eq.
    change (getPrintableCategory (StdTuple None Ts)) with Tuple.
    cbn [Build.printToStreamTagged_Tuple]. split.
    + intros Hb. apply build_printTupleHelper_accepted in Hb as [Hne HTs]; [|lia].
      constructor; [assumption|]. rewrite Forall_forall in IH, HTs |- *.
      intros T HT. now apply IH, HTs.
    + intros H. inversion H as [? ? E| |? Hne HTs|]; [discriminate E|]; subst.
      apply build_printTupleHelper_accepts; [lia | assumption|].
      rewrite Forall_forall in IH, HTs |- *. intros T HT. now apply IH, HTs.
  - rewrite build_printToStream1_eq.
    change (getPrintableCategory (Range None Elem)) with Iteratable.
    cbn [Build.printToStreamTagged_Iteratable]. rewrite IH. split.
    + intros H. now constructor.
    + intros H. inversion H as [? ? E| | |]; [discriminate E | assumption].
Qed.

(** * Further properties of the template interpreter *)

Lemma part_cases (begin : string) :
  forall sink,
    (exists toks it,
        proper toks /\ placeholders toks = 0 /\
        begin = template_of toks ++ String "%" (String "s" it) /\
        Impl.printFormatPartToStream begin sink
        = (Ok (it, true), sink ++ substitute 0 toks [])) \/
    (exists toks,
        proper toks /\ placeholders toks = 0 /\
        begin = template_of toks /\
        Impl.printFormatPartToStream begin sink
        = (Ok ("", false), sink ++ substitute 0 toks [])) \/
    (exists e sink',
        (e = Impl.format_ends_on_percent \/ e = Impl.format_illegal_specifier) /\
        Impl.printFormatPartToStream begin sink = (Throw e, sink')).
Proof.
  induction begin as [|c rest Hc IH| |rest IH|rest IH|d rest Hd] using template_ind;
    intros sink.
  - right; left. exists []. repeat split; [constructor|].
    simpl. now rewrite append_nil_r.
  - rewrite part_literal by assumption.
    destruct (IH (sink ++ String c ""))
      as [(toks & it & Hp & Hn & -> & Hrun)|[(toks & Hp & Hn & -> & Hrun)|(e & sink' & He & Hrun)]].
    + left. exists (Literal c :: toks), it.
      repeat split; [now constructor | assumption|].
      rewrite Hrun. cbn [substitute]. now rewrite append_assoc.
    + right; left. exists (Literal c :: toks).
      repeat split; [now constructor | assumption|].
      rewrite Hrun. cbn [substitute]. now rewrite append_assoc.
    + right; right. now exists e, sink'.
  - right; right. exists Impl.format_ends_on_percent, sink.
    split; [now left | apply part_percent_end].
  - rewrite part_escape.
    destruct (IH (sink ++ "%"))
      as [(toks & it & Hp & Hn & -> & Hrun)|[(toks & Hp & Hn & -> & Hrun)|(e & sink' & He & Hrun)]].
    + left. exists (Escape :: toks), it.
      repeat split; [now constructor | assumption|].
      rewrite Hrun. cbn [substitute]. now rewrite append_assoc.
    + right; left. exists (Escape :: toks).
      repeat split; [now constructor | assumption|].
      rewrite Hrun. cbn [substitute]. now rewrite append_assoc.
    + right; right. now exists e, sink'.
  - left. exists [], rest. repeat split; [constructor|].
    rewrite part_placeholder. simpl. now rewrite append_nil_r.
  - right; right. exists Impl.format_illegal_specifier, sink.
    split; [now right | now apply part_illegal].
Qed.

(** X6: [printFormatPartToStream] stops at the first placeholder or at the
    end of the format.  When it asks for an argument, the position it
    returns is right after a [%s], and before that [%s] the format is
    well-formed and has no placeholder; when it does not, the position is
    the end of the format, as the [assert] of its caller expects.  Either
    way it has written that part of the format, with [%] for [%%].  The
    only exceptions it throws are those for an unmatched [%] and for an
    illegal specifier. *)
Theorem format_part_contract (begin : string) (sink : ostream) :
  match Impl.printFormatPartToStream begin sink with
  | (Ok (it, true), sink') =>
      exists prefix,
        begin = prefix ++ String "%" (String "s" it) /\
        well_formed prefix = true /\
        placeholders (tokens prefix) = 0 /\
        sink' = sink ++ substitute 0 (tokens prefix) []
  | (Ok (it, false), sink') =>
      it = "" /\
      well_formed begin = true /\
      placeholders (tokens begin) = 0 /\
      sink' = sink ++ substitute 0 (tokens begin) []
  | (Throw e, _) =>
      e = Impl.format_ends_on_percent \/ e = Impl.format_illegal_specifier
  | (Abort _, _) => False
  end.
Proof.
  destruct (part_cases begin sink)
    as [(toks & it & Hp & Hn & -> & ->)|[(toks & Hp & Hn & -> & ->)|(e & sink' & He & ->)]].
  - destruct (template_of_well_formed toks Hp) as [Hwf Ht].
    exists (template_of toks). rewrite Ht. now repeat split.
  - destruct (template_of_well_formed toks Hp) as [Hwf Ht].
    rewrite Ht. now repeat split.
  - exact He.
Qed.

(** X7: interpreting two templates one after the other, each with its own
    arguments, is interpreting their concatenation with the arguments
    concatenated, provided the first template is well-formed and has as
    many placeholders as it is given arguments: the same text is written
    and the same exception, if any, is thrown. *)
Theorem interpret_concatenation (t1 t2 : string) (args1 args2 : list Arg) (sink : ostream) :
  well_formed t1 = true ->
  placeholders (tokens t1) = length args1 ->
  Forall (fun a => renderable a = true) args1 ->
  printToStreamF (t1 ++ t2) (args1 ++ args2)%list sink
  = (printToStreamF t1 args1 ;; printToStreamF t2 args2) sink.
Proof.
  intros Hwf Hn Hall. unfold printToStreamF.
  destruct (renderable_all_write args1 Hall) as [texts Hw].
  destruct (well_formed_template_of t1 Hwf) as [E Hp].
  assert (Outcome t1 args1 texts (Ok tt) (substitute 0 (tokens t1) texts)) as Ho
      by (apply out_done; [assumption | assumption | lia]).
  unfold bind. rewrite (Outcome_sound _ _ _ _ _ Hw Ho).
  rewrite E at 1.
  rewrite (F_prefix (tokens t1) t2 args1 args2 [] texts [] sink Hp Hw) by now symmetry.
  simpl. now rewrite app_nil_r.
Qed.

Lemma interpret_concatenation_witness :
  printToStreamF ("%s + " ++ "%s = %q") ([Types.a_int 1] ++ [Types.a_int 2])%list "X"
  = (printToStreamF "%s + " [Types.a_int 1] ;;
     printToStreamF "%s = %q" [Types.a_int 2]) "X".
Proof.
  apply interpret_concatenation; [reflexivity | reflexivity | repeat constructor].
Defined.

(** X8: doubling every [%] of a text gives a template that is interpreted
    as the text itself, whatever arguments are passed with it. *)
Theorem escape_round_trip (text : string) (args : list Arg) :
  toStringF (escape text) args = Ok text /\
  forall sink, printToStreamF (escape text) args sink = (Ok tt, sink ++ text).
Proof.
  assert (forall sink, Impl.printToStreamF (escape text) args sink = (Ok tt, sink ++ text))
    as Hrun.
  { induction text as [|c text IH]; intros sink.
    - simpl. rewrite F_empty. now rewrite append_nil_r.
    - cbn [escape]. destruct (Ascii.eqb c "%") eqn:Ec.
      + apply Ascii.eqb_eq in Ec. subst c.
        rewrite F_escape, IH. now rewrite append_assoc.
      + rewrite F_literal by assumption. rewrite IH. now rewrite append_assoc. }
  split; [now apply toStringF_ok | exact Hrun].
Qed.

(** X9: with renderable arguments, [toStringF] returns a text exactly when
    the template is well-formed and has at most as many placeholders as
    there are arguments. *)
Theorem interpret_returns_iff (template : string) (args : list Arg) :
  Forall (fun a => renderable a = true) args ->
  ((exists out, toStringF template args = Ok out) <->
   well_formed template = true /\ placeholders (tokens template) <= length args).
Proof.
  intros Hall. destruct (renderable_all_write args Hall) as [texts Hw]. split.
  - intros [out Hrun].
    destruct (Outcome_total template args texts) as (r & out' & Ho).
    rewrite (toStringF_Outcome _ _ _ _ _ Hw Ho) in Hrun.
    destruct Ho as [toks -> Hp Hle| | |]; try discriminate Hrun.
    destruct (template_of_well_formed toks Hp) as [Hwf Ht]. rewrite Ht. now split.
  - intros [Hwf Hle]. destruct (well_formed_template_of template Hwf) as [E Hp].
    exists (substitute 0 (tokens template) texts).
    apply (toStringF_Outcome _ _ texts (Ok tt) _ Hw). now apply out_done.
Qed.

Lemma interpret_returns_iff_witness :
  (exists out, toStringF "%s%%" [Types.a_int 1; Types.a_int 2] = Ok out) <->
  well_formed "%s%%" = true /\
  placeholders (tokens "%s%%") <= length [Types.a_int 1; Types.a_int 2].
Proof.
  apply interpret_returns_iff. repeat constructor.
Defined.

(** X10: unless the arguments run out, passing further arguments changes
    nothing: the text returned or the exception thrown, and what is
    written to the stream, are the same. *)
Theorem further_arguments_change_nothing (template : string) (args extra : list Arg) :
  Forall (fun a => renderable a = true) args ->
  toStringF template args <> Throw Impl.format_requests_more ->
  toStringF template (args ++ extra)%list = toStringF template args /\
  forall sink,
    printToStreamF template (args ++ extra)%list sink = printToStreamF template args sink.
Proof.
  intros Hall Hnot. destruct (renderable_all_write args Hall) as [texts Hw].
  assert (forall sink,
             Impl.printToStreamF template (args ++ extra)%list sink
             = Impl.printToStreamF template args sink) as Hrun.
  { destruct (Outcome_total template args texts) as (r & out & Ho).
    pose proof (toStringF_Outcome _ _ _ _ _ Hw Ho) as Hr.
    assert (forall toks rest,
               template = template_of toks ++ rest ->
               proper toks -> placeholders toks <= length args ->
               (forall remaining remaining' sink,
                   Impl.printToStreamF rest remaining sink
                   = Impl.printToStreamF rest remaining' sink) ->
               forall sink,
                 Impl.printToStreamF template (args ++ extra)%list sink
                 = Impl.printToStreamF template args sink) as Hcase.
    { intros toks rest -> Hp Hle Hrest sink.
      pose proof Hw as Hw'.
      rewrite <- (firstn_skipn (placeholders toks) args) in Hw'.
      apply Forall2_app_inv_l in Hw' as (used & post & Hused & _ & _).
      assert (length (firstn (placeholders toks) args) = placeholders toks) as Hlen
          by (rewrite length_firstn; lia).
      rewrite <- (firstn_skipn (placeholders toks) args) at 1 2.
      rewrite <- app_assoc.
      rewrite (F_prefix toks rest _ (skipn (placeholders toks) args ++ extra)%list
                        [] used [] sink Hp Hused Hlen).
      rewrite (F_prefix toks rest _ (skipn (placeholders toks) args)
                        [] used [] sink Hp Hused Hlen).
      apply Hrest. }
    destruct Ho as [toks E Hp Hle|toks E Hp Hle|toks d rest E Hd Hp Hle|toks rest E Hp Hle].
    - apply (Hcase toks ""); try assumption; [now rewrite append_nil_r|].
      intros. now rewrite !F_empty.
    - apply (Hcase toks "%"); try assumption. intros. now rewrite !F_percent_end.
    - apply (Hcase toks (String "%" (String d rest))); try assumption.
      intros. now rewrite !F_illegal.
    - contradiction. }
  split; [|exact Hrun].
  unfold toStringF, with_stringstream, printToStreamF. now rewrite Hrun.
Qed.

Lemma further_arguments_change_nothing_witness :
  toStringF "%s%q" ([Types.a_int 1] ++ [Types.a_int 2; Types.a_int 3])%list
  = toStringF "%s%q" [Types.a_int 1] /\
  forall sink,
    printToStreamF "%s%q" ([Types.a_int 1] ++ [Types.a_int 2; Types.a_int 3])%list sink
    = printToStreamF "%s%q" [Types.a_int 1] sink.
Proof.
  apply further_arguments_change_nothing; [repeat constructor | discriminate].
Defined.
